(** * GlamAI: the upload glue, verified against its sources

    A shallow embedding of the request/response glue of the repository:
    - the FastAPI handlers of [backend/main.py] as DEPLOYMENT_GUIDE.md gives
      them ([cleanup_file], [analyze_and_recommend], [periodic_cleanup]);
    - the axios client of [frontend/src/services/api.js] (the shared
      instance, the response interceptor, [retryRequest] and the six
      exported operations);
    - [validateFile] and [handleFileUpload] of FileUpload.jsx;
    - [handleAnalyze] of App.jsx;
    - [formatFileSize] of ImagePreview.jsx.

    Python code is written in a small state-and-exception monad over a model
    of the disk; JavaScript promises are values that are either resolved or
    rejected, and the network is a function of the requests sent so far.

    What the model leaves out or fixes:
    - [console.log], [console.error] and the text of Python's [print] lines
      (the lines themselves are kept, as events);
    - operating-system failures other than a missing path or a wrong kind
      of node: [os.remove] succeeds on a regular file that exists;
    - floating point: [formatFileSize] is read in exact arithmetic, and the
      retry delay is a rational number;
    - the two external services ([face_analyzer], [claude_client]) and the
      modules a component imports are parameters: every statement holds for
      all of them. *)

From stdpp Require Import gmap strings list fin_maps pretty.
From Stdlib Require Import Ascii ZArith QArith Qpower Lia Reals Lra.

#[local] Set Warnings "-register-all".

Local Open Scope string_scope.
Local Open Scope list_scope.
Local Open Scope Z_scope.

(** ** JSON values, shared by the backend's dicts and the frontend's objects *)

Inductive json :=
| JNull
| JBool (b : bool)
| JNum (z : Z)
| JStr (s : string)
| JArr (items : list json)
| JObj (fields : list (string * json)).

(** [o[k]] on a dict or object literal: the first binding of the key. *)
Fixpoint assoc {A : Type} (k : string) (fields : list (string * A)) : option A :=
  match fields with
  | [] => None
  | (k', v) :: rest => if String.eqb k k' then Some v else assoc k rest
  end.

(** ** Python: exceptions, the disk, and a monad for handlers *)

Module Py.

(** The exception classes the modelled code can meet. [BaseExceptionOnly]
    stands for the classes outside [Exception] (asyncio.CancelledError,
    KeyboardInterrupt, SystemExit), which [except Exception] lets through. *)
Inductive exn :=
| FileNotFoundError (path : string)
| IsADirectoryError (path : string)
| NotADirectoryError (path : string)
| OtherException (msg : string)
| BaseExceptionOnly (msg : string).

Definition isinstance_Exception (e : exn) : bool :=
  match e with
  | BaseExceptionOnly _ => false
  | _ => true
  end.

(** [str(e)] *)
Definition str (e : exn) : string :=
  match e with
  | FileNotFoundError p => "[Errno 2] No such file or directory: '" +:+ p +:+ "'"
  | IsADirectoryError p => "[Errno 21] Is a directory: '" +:+ p +:+ "'"
  | NotADirectoryError p => "[Errno 20] Not a directory: '" +:+ p +:+ "'"
  | OtherException m => m
  | BaseExceptionOnly m => m
  end.

Inductive outcome (A : Type) :=
| Returns (a : A)
| Raises (e : exn).
Arguments Returns {A} a.
Arguments Raises {A} e.

(** The disk: a finite map from path strings to nodes. Paths are compared
    as written (no normalisation, no links). *)
Inductive node_kind := RegularFile | Directory.

Record node := Node { kind : node_kind; mtime : Z }.

Abbreviation disk := (gmap string node).

(** What the handlers print, as events rather than formatted text, and the
    time they spend in [asyncio.sleep]. *)
Inductive event :=
| Deleted (path : string)
| CleanupError (msg : string)
| PrivacyCleanup (path : string)
| CleanupFailed (msg : string)
| PeriodicCleanup (path : string)
| PeriodicCleanupError (msg : string)
| Slept (seconds : Z).

(** A computation reads and writes the disk, prints, and returns or raises. *)
Definition py (A : Type) : Type := disk → outcome A * disk * list event.

Definition ret {A} (a : A) : py A := λ d, (Returns a, d, []).

Definition raise {A} (e : exn) : py A := λ d, (Raises e, d, []).

Definition bind {A B} (m : py A) (k : A → py B) : py B := λ d,
  match m d with
  | (Returns a, d1, l1) => let '(r, d2, l2) := k a d1 in (r, d2, l1 ++ l2)
  | (Raises e, d1, l1) => (Raises e, d1, l1)
  end.

Definition print (ev : event) : py unit := λ d, (Returns tt, d, [ev]).

Definition lift {A} (o : outcome A) : py A := λ d, (o, d, []).

(** [try: m  except Exception as e: h e] *)
Definition try_except {A} (m : py A) (h : exn → py A) : py A := λ d,
  match m d with
  | (Raises e, d1, l1) =>
      if isinstance_Exception e
      then let '(r, d2, l2) := h e d1 in (r, d2, l1 ++ l2)
      else (Raises e, d1, l1)
  | r => r
  end.

(** [try: m  finally: f]: [f] runs whatever [m] did; the result of [m]
    stands unless [f] itself raises. *)
Definition try_finally {A} (m : py A) (f : py unit) : py A := λ d,
  let '(r, d1, l1) := m d in
  match f d1 with
  | (Returns _, d2, l2) => (r, d2, l1 ++ l2)
  | (Raises e, d2, l2) => (Raises e, d2, l1 ++ l2)
  end.

(** The monad's operations under stdpp's notations [x ← m; k] and [m ;; k]. *)
#[global] Instance py_ret : MRet py := @ret.
#[global] Instance py_bind : MBind py := λ A B k m, bind m k.

(** *** The [os] functions the handlers call *)

Definition os_path_exists (path : string) : py bool := λ d,
  (Returns (bool_decide (is_Some (d !! path))), d, []).

Definition os_remove (path : string) : py unit := λ d,
  match d !! path with
  | None => (Raises (FileNotFoundError path), d, [])
  | Some n =>
      match kind n with
      | RegularFile => (Returns tt, delete path d, [])
      | Directory => (Raises (IsADirectoryError path), d, [])
      end
  end.

Definition os_path_getmtime (path : string) : py Z := λ d,
  match d !! path with
  | None => (Raises (FileNotFoundError path), d, [])
  | Some n => (Returns (mtime n), d, [])
  end.

(** [os.path.join(a, b)], for [a] without a trailing slash: an absolute
    [b] stands alone. *)
Definition is_absolute (path : string) : bool :=
  match path with
  | String c _ => Ascii.eqb c "/"%char
  | EmptyString => false
  end.

Definition os_path_join (a b : string) : string :=
  if is_absolute b then b else a +:+ "/" +:+ b.

(** [strip_prefix p s] is the rest of [s] after [p], when [s] starts with [p]. *)
Fixpoint strip_prefix (p s : string) : option string :=
  match p, s with
  | EmptyString, _ => Some s
  | String a p', String b s' => if Ascii.eqb a b then strip_prefix p' s' else None
  | String _ _, EmptyString => None
  end.

Fixpoint has_slash (s : string) : bool :=
  match s with
  | EmptyString => false
  | String c s' => Ascii.eqb c "/"%char || has_slash s'
  end.

(** The entry of directory [dir] that path [p] names, if it names one. *)
Definition entry_of (dir p : string) : option string :=
  match strip_prefix (dir +:+ "/") p with
  | Some name => if has_slash name || String.eqb name "" then None else Some name
  | None => None
  end.

(** [os.listdir(dir)]: the names of the directory's entries, in the order
    the map enumerates them. *)
Definition os_listdir (dir : string) : py (list string) := λ d,
  match d !! dir with
  | None => (Raises (FileNotFoundError dir), d, [])
  | Some n =>
      match kind n with
      | RegularFile => (Raises (NotADirectoryError dir), d, [])
      | Directory => (Returns (omap (entry_of dir) (map_to_list d).*1), d, [])
      end
  end.

Definition asyncio_sleep (seconds : Z) : py unit := λ d,
  (Returns tt, d, [Slept seconds]).

(** The three parts of a finished run. *)
Definition result_of {A} (x : outcome A * disk * list event) : outcome A := x.1.1.
Definition disk_of {A} (x : outcome A * disk * list event) : disk := x.1.2.
Definition log_of {A} (x : outcome A * disk * list event) : list event := x.2.

End Py.

(** ** backend/main.py (DEPLOYMENT_GUIDE.md, "Enhanced cleanup") *)

Module Backend.
Import Py.

(** [bool(s)] for a string: the empty string is falsy. *)
Definition truthy (s : string) : bool := negb (String.eqb s "").

Definition uploads_dir : string := "uploads".

(** [async def cleanup_file(file_path, delay=0)] *)
Definition cleanup_file (file_path : string) (delay : Z) : py unit :=
  (if 0 <? delay then asyncio_sleep delay else mret tt);;
  try_except
    (ex ← os_path_exists file_path;
     if ex : bool
     then os_remove file_path;; print (Deleted file_path)
     else mret tt)
    (λ e, print (CleanupError (str e))).

(** The [finally] block of [analyze_and_recommend]; [temp_path] is [None]
    until the handler's first statement assigns it. *)
Definition privacy_cleanup (temp_path : option string) : py unit :=
  match temp_path with
  | None => mret tt
  | Some p =>
      if truthy p
      then ex ← os_path_exists p;
           if ex : bool
           then try_except
                  (os_remove p;; print (PrivacyCleanup p))
                  (λ cleanup_error, print (CleanupFailed (str cleanup_error)))
           else mret tt
      else mret tt
  end.

Section Handlers.
(** The two external services: the landmark detector reads the disk and
    returns or raises; the recommendation client returns or raises. *)
Variable analyze_face : string → disk → outcome json.
Variable get_recommendations : json → outcome json.

Definition face_analyzer_analyze_face (path : string) : py json := λ d,
  (analyze_face path d, d, []).

Definition claude_client_get_recommendations (analysis : json) : py json :=
  lift (get_recommendations analysis).

(** The [try]/[except] part of [analyze_and_recommend]. *)
Definition guarded_body (temp_path : string) : py json :=
  try_except
    (analysis_result ← face_analyzer_analyze_face temp_path;
     recommendations ← claude_client_get_recommendations analysis_result;
     mret (JObj [("analysis", analysis_result);
                 ("recommendations", recommendations);
                 ("status", JStr "success")]))
    (λ e, mret (JObj [("error", JStr (str e)); ("status", JStr "error")])).

(** [@app.post("/analyze-and-recommend")] *)
Definition analyze_and_recommend (file_id : string) : py json :=
  let temp_path := "uploads/" +:+ file_id in
  try_finally (guarded_body temp_path) (privacy_cleanup (Some temp_path)).
End Handlers.

(** The body of the [for filename in os.listdir(uploads_dir)] loop, over
    the names the listing gave. [now] is the reading of [time.time()]; the
    readings of one turn are taken to be one instant. *)
Fixpoint sweep (now : Z) (names : list string) : py unit :=
  match names with
  | [] => mret tt
  | filename :: rest =>
      let file_path := os_path_join uploads_dir filename in
      m ← os_path_getmtime file_path;
      (if m <? now - 300
       then os_remove file_path;; print (PeriodicCleanup file_path)
       else mret tt);;
      sweep now rest
  end.

(** One turn of the [while True] loop of [periodic_cleanup]. *)
Definition periodic_cleanup_pass (now : Z) : py unit :=
  try_except
    (ex ← os_path_exists uploads_dir;
     if ex : bool
     then names ← os_listdir uploads_dir; sweep now names
     else mret tt)
    (λ e, print (PeriodicCleanupError (str e)));;
  asyncio_sleep 300.

(** The first turns of [periodic_cleanup], one per reading of the clock. *)
Fixpoint periodic_cleanup (clock : list Z) : py unit :=
  match clock with
  | [] => mret tt
  | now :: later => periodic_cleanup_pass now;; periodic_cleanup later
  end.

End Backend.

(** ** JavaScript: values, errors, and a monad for async functions *)

Module Js.

(** A value a property read can give: [undefined], or a JSON value
    ([value JNull] is JavaScript's [null]). *)
Inductive jsval :=
| undefined
| value (j : json).

(** An object as a list of its own properties. *)
Abbreviation object := (list (string * json)).

(** [o.k] on an object: [undefined] when the property is missing. *)
Definition get (o : object) (k : string) : jsval :=
  match assoc k o with
  | Some v => value v
  | None => undefined
  end.

(** Truthiness, as [!x], [x || y] and [if (x)] read it. *)
Definition truthy_json (j : json) : bool :=
  match j with
  | JNull => false
  | JBool b => b
  | JNum z => negb (z =? 0)
  | JStr s => negb (String.eqb s "")
  | JArr _ | JObj _ => true
  end.

Definition truthy (v : jsval) : bool :=
  match v with
  | undefined => false
  | value j => truthy_json j
  end.

Fixpoint join (sep : string) (parts : list string) : string :=
  match parts with
  | [] => ""
  | [p] => p
  | p :: rest => p +:+ sep +:+ join sep rest
  end.

(** [String(j)], the text [new Error(j)] takes as its message. *)
Fixpoint to_String (j : json) : string :=
  match j with
  | JNull => "null"
  | JBool true => "true"
  | JBool false => "false"
  | JNum z => pretty z
  | JStr s => s
  | JArr items =>
      join "," (List.map (λ x, match x with JNull => "" | _ => to_String x end) items)
  | JObj _ => "[object Object]"
  end.

(** An HTTP response as axios hands it over, and the fields of a thrown
    error that the client reads: [error.code], [error.message] and
    [error.response]. *)
Record http_response := Response { status : Z; data : json }.

Record error := Error {
  code : option string;
  message : string;
  response : option http_response
}.

(** [new Error(msg)]: a message, no [code], no [response]. *)
Definition new_Error (msg : string) : error :=
  {| code := None; message := msg; response := None |}.

(** A promise once settled. *)
Inductive settled (A : Type) :=
| Resolved (a : A)
| Rejected (e : error).
Arguments Resolved {A} a.
Arguments Rejected {A} e.

(** An async function over a state [S]: it ends resolved or rejected and
    leaves a new state. *)
Definition task (S A : Type) : Type := S → settled A * S.

Definition ret {S A} (a : A) : task S A := λ s, (Resolved a, s).

Definition throw {S A} (e : error) : task S A := λ s, (Rejected e, s).

Definition bind {S A B} (m : task S A) (k : A → task S B) : task S B := λ s,
  match m s with
  | (Resolved a, s1) => k a s1
  | (Rejected e, s1) => (Rejected e, s1)
  end.

#[global] Instance task_ret {S} : MRet (task S) := @ret S.
#[global] Instance task_bind {S} : MBind (task S) := λ A B k m, bind m k.

(** [try { m } catch (e) { h e }] *)
Definition try_catch {S A} (m : task S A) (h : error → task S A) : task S A := λ s,
  match m s with
  | (Rejected e, s1) => h e s1
  | r => r
  end.

(** [try { m } finally { f }] *)
Definition try_finally {S A} (m : task S A) (f : task S unit) : task S A := λ s,
  let '(r, s1) := m s in
  match f s1 with
  | (Resolved _, s2) => (r, s2)
  | (Rejected e, s2) => (Rejected e, s2)
  end.

Definition gets {S A} (f : S → A) : task S A := λ s, (Resolved (f s), s).

Definition modify {S} (f : S → S) : task S unit := λ s, (Resolved tt, f s).

(** Run a task on a part of the state. *)
Definition zoom {S T A} (proj : S → T) (upd : T → S → S) (m : task T A) : task S A := λ s,
  let '(r, t) := m (proj s) in (r, upd t s).

Definition of_settled {S A} (r : settled A) : task S A := λ s, (r, s).

(** A browser [File]: the fields the code reads. *)
Record file := File { file_name : string; file_type : string; file_size : Z }.

End Js.

(** ** frontend/src/services/api.js *)

Module Api.
Import Js.

Inductive http_method := GET | POST | DELETE.

(** The [data] argument of a request. *)
Inductive body :=
| no_body
| null_body
| form_data (fields : list (string * file))
| json_body (j : json).

(** Handles through which a caller could cancel a request. *)
Inductive abort_handle :=
| AbortSignal (id : nat)
| CancelToken (id : nat).

(** The config object a call passes; an absent key is [None] or empty. *)
Record request_config := Config {
  cfg_params : list (string * string);
  cfg_headers : list (string * string);
  cfg_timeout : option Z;
  cfg_signal : option abort_handle;
  cfg_cancelToken : option abort_handle
}.

Definition no_config : request_config :=
  {| cfg_params := []; cfg_headers := []; cfg_timeout := None;
     cfg_signal := None; cfg_cancelToken := None |}.

(** The request that leaves the client, after the instance's defaults
    were merged in. *)
Record request := Request {
  req_method : http_method;
  req_baseURL : string;
  req_url : string;
  req_params : list (string * string);
  req_data : body;
  req_headers : list (string * string);
  req_timeout : Z;
  req_signal : option abort_handle;
  req_cancelToken : option abort_handle
}.

(** What the client does to the outside: the requests sent, in order, and
    the delays (in ms) it waited through [setTimeout]. *)
Record world := World { sent : list request; timers : list Q }.

(** [setTimeout] wrapped in a promise and awaited. *)
Definition sleep (delay : Q) : task world unit :=
  modify (λ w, {| sent := sent w; timers := timers w ++ [delay] |}).

Definition is_cold_start_code (c : option string) : bool :=
  match c with
  | Some c => String.eqb c "ERR_NETWORK" || String.eqb c "ECONNABORTED"
  | None => false
  end.

(** [const retryRequest = async (fn, retries = 2, delay = 2000) => ...];
    [retries] counts down, so it is a natural number here: [retries > 0]
    is the successor case and [retries - 1] its predecessor. *)
Fixpoint retryRequest {A} (fn : task world A) (retries : nat) (delay : Q)
  : task world A :=
  try_catch fn (λ error,
    match retries with
    | S retries_minus_1 =>
        if is_cold_start_code (code error)
        then sleep delay;;
             retryRequest fn retries_minus_1 (Qred (delay * (3 # 2)))
        else throw error
    | O => throw error
    end).

Definition default_retries : nat := 2.
Definition default_delay : Q := 2000 # 1.

(** The delays of [n] retries in a row that start at [delay]. *)
Fixpoint backoff (n : nat) (delay : Q) : list Q :=
  match n with
  | O => []
  | S n' => delay :: backoff n' (Qred (delay * (3 # 2)))
  end.

(** [error.response?.data?.detail] *)
Definition response_detail (e : error) : jsval :=
  match response e with
  | Some r =>
      match data r with
      | JObj fields => get fields "detail"
      | _ => undefined
      end
  | None => undefined
  end.

(** The error handler of [api.interceptors.response.use]: whatever error
    comes in, what goes out is a fresh [Error] with a message only. *)
Definition response_rejected (e : error) : error :=
  let st := status <$> response e in
  if bool_decide (st = Some 404) then
    new_Error "Service not found. Please check if the backend is running."
  else if bool_decide (st = Some 500) then
    new_Error "Internal server error. Please try again later."
  else if bool_decide (code e = Some "ECONNABORTED") then
    new_Error "Request timeout. The server may be starting up (cold start). Please wait 30 seconds and try again."
  else if bool_decide (code e = Some "ERR_NETWORK") then
    new_Error "Network error. Please check your connection and ensure the backend is running."
  else
    match response_detail e with
    | value d =>
        if truthy_json d then new_Error (to_String d)
        else if negb (String.eqb (message e) "") then new_Error (message e)
        else new_Error "An unexpected error occurred"
    | undefined =>
        if negb (String.eqb (message e) "") then new_Error (message e)
        else new_Error "An unexpected error occurred"
    end.

(** Headers of the call over the instance's: a key the call names wins. *)
Definition merge_headers (defaults overrides : list (string * string))
  : list (string * string) :=
  overrides ++
  List.filter (λ kv, match assoc (fst kv) overrides with
                     | Some _ => false
                     | None => true
                     end) defaults.

Section Client.
(** [import.meta.env.VITE_API_URL], and the network: what a request gets
    back, given the requests sent before it. Axios resolves on a 2xx
    answer and rejects otherwise. *)
Variable VITE_API_URL : option string.
Variable network : list request → request → settled http_response.

Definition API_BASE_URL : string :=
  match VITE_API_URL with
  | Some u => if String.eqb u "" then "http://localhost:8000" else u
  | None => "http://localhost:8000"
  end.

(** [axios.create({ baseURL, timeout: 30000, headers })] *)
Definition api_baseURL : string := API_BASE_URL.
Definition api_timeout : Z := 30000.
Definition api_headers : list (string * string) :=
  [("Content-Type", "application/json")].

Definition mergeConfig (m : http_method) (url : string) (payload : body)
    (cfg : request_config) : request :=
  {| req_method := m;
     req_baseURL := api_baseURL;
     req_url := url;
     req_params := cfg_params cfg;
     req_data := payload;
     req_headers := merge_headers api_headers (cfg_headers cfg);
     req_timeout := default api_timeout (cfg_timeout cfg);
     req_signal := cfg_signal cfg;
     req_cancelToken := cfg_cancelToken cfg |}.

Definition dispatch (req : request) : task world http_response := λ w,
  (network (sent w) req, {| sent := sent w ++ [req]; timers := timers w |}).

(** A call through the instance: the request interceptor returns the
    config as it is, the response interceptor returns a response as it
    is and rethrows an error through [response_rejected]. *)
Definition api_request (m : http_method) (url : string) (payload : body)
    (cfg : request_config) : task world http_response :=
  try_catch (dispatch (mergeConfig m url payload cfg))
            (λ error, throw (response_rejected error)).

Definition api_post := api_request POST.
Definition api_get (url : string) := api_request GET url no_body no_config.
Definition api_delete (url : string) := api_request DELETE url no_body no_config.

Definition uploadFile (f : file) : task world json :=
  let formData := form_data [("file", f)] in
  response ← api_post "/upload" formData
    {| cfg_params := []; cfg_headers := [("Content-Type", "multipart/form-data")];
       cfg_timeout := None; cfg_signal := None; cfg_cancelToken := None |};
  mret (data response).

Definition analyzeImage (fileId : string) : task world json :=
  response ← api_post "/analyze" null_body
    {| cfg_params := [("file_id", fileId)]; cfg_headers := [];
       cfg_timeout := None; cfg_signal := None; cfg_cancelToken := None |};
  mret (data response).

Definition getRecommendations (analysisData : json) : task world json :=
  response ← api_post "/recommend" (json_body analysisData) no_config;
  mret (data response).

Definition analyzeAndRecommend (fileId : string) : task world json :=
  retryRequest
    (response ← api_post "/analyze-and-recommend" null_body
       {| cfg_params := [("file_id", fileId)]; cfg_headers := [];
          cfg_timeout := None; cfg_signal := None; cfg_cancelToken := None |};
     mret (data response))
    default_retries default_delay.

Definition cleanupFile (fileId : string) : task world json :=
  response ← api_delete ("/cleanup/" +:+ fileId);
  mret (data response).

Definition healthCheck : task world json :=
  response ← api_get "/";
  mret (data response).

(** The module's exports, as calls. *)
Inductive operation :=
| op_uploadFile (f : file)
| op_analyzeImage (fileId : string)
| op_getRecommendations (analysisData : json)
| op_analyzeAndRecommend (fileId : string)
| op_cleanupFile (fileId : string)
| op_healthCheck.

Definition run_operation (op : operation) : task world json :=
  match op with
  | op_uploadFile f => uploadFile f
  | op_analyzeImage fileId => analyzeImage fileId
  | op_getRecommendations analysisData => getRecommendations analysisData
  | op_analyzeAndRecommend fileId => analyzeAndRecommend fileId
  | op_cleanupFile fileId => cleanupFile fileId
  | op_healthCheck => healthCheck
  end.
End Client.

End Api.

(** ** frontend/src/components/FileUpload.jsx *)

Module FileUpload.
Import Js.

(** The component's state, the network, and the calls the component made:
    to the imported [uploadFile] and to its [onFileUpload] prop. *)
Record env := Env {
  isDragging : bool;
  uploading : bool;
  error : option string;
  net : Api.world;
  uploadFile_calls : list file;
  onFileUpload_calls : list (file * jsval)
}.

Definition setUploading (b : bool) : task env unit :=
  modify (λ e, {| isDragging := isDragging e; uploading := b; error := error e;
                  net := net e; uploadFile_calls := uploadFile_calls e;
                  onFileUpload_calls := onFileUpload_calls e |}).

Definition setError (m : option string) : task env unit :=
  modify (λ e, {| isDragging := isDragging e; uploading := uploading e; error := m;
                  net := net e; uploadFile_calls := uploadFile_calls e;
                  onFileUpload_calls := onFileUpload_calls e |}).

Definition setIsDragging (b : bool) : task env unit :=
  modify (λ e, {| isDragging := b; uploading := uploading e; error := error e;
                  net := net e; uploadFile_calls := uploadFile_calls e;
                  onFileUpload_calls := onFileUpload_calls e |}).

Definition onFileUpload (f : file) (id : jsval) : task env unit :=
  modify (λ e, {| isDragging := isDragging e; uploading := uploading e; error := error e;
                  net := net e; uploadFile_calls := uploadFile_calls e;
                  onFileUpload_calls := onFileUpload_calls e ++ [(f, id)] |}).

(** A call of an imported API function on [f]: noted, then run on the network. *)
Definition call_api {A} (api : file → task Api.world A) (f : file) : task env A :=
  modify (λ e, {| isDragging := isDragging e; uploading := uploading e; error := error e;
                  net := net e; uploadFile_calls := uploadFile_calls e ++ [f];
                  onFileUpload_calls := onFileUpload_calls e |});;
  zoom net (λ w e, {| isDragging := isDragging e; uploading := uploading e;
                      error := error e; net := w;
                      uploadFile_calls := uploadFile_calls e;
                      onFileUpload_calls := onFileUpload_calls e |}) (api f).

Definition maxSize : Z := 10 * 1024 * 1024.

(** [validateFile]: throws, or returns [true]. *)
Definition validateFile (f : file) : settled bool :=
  if negb (String.prefix "image/" (file_type f)) then
    Rejected (new_Error "Please select an image file")
  else if file_size f >? maxSize then
    Rejected (new_Error "File size must be less than 10MB")
  else Resolved true.

Section WithApi.
(** [import { uploadFile } from '../services/api']: a promise of an object. *)
Variable uploadFile : file → task Api.world object.

Definition handleFileUpload (f : file) : task env unit :=
  try_finally
    (try_catch
       (of_settled (validateFile f);;
        setUploading true;;
        setError None;;
        response ← call_api uploadFile f;
        onFileUpload f (get response "file_id"))
       (λ err, setError (Some (message err))))
    (setUploading false).

(** [handleDrop] and [handleFileSelect] both pass on the first file. *)
Definition handleDrop (files : list file) : task env unit :=
  setIsDragging false;;
  match files with
  | f :: _ => handleFileUpload f
  | [] => mret tt
  end.

Definition handleFileSelect (files : list file) : task env unit :=
  match files with
  | f :: _ => handleFileUpload f
  | [] => mret tt
  end.
End WithApi.

End FileUpload.

(** ** frontend/src/App.jsx *)

Module App.
Import Js.

Inductive step := upload | preview | analysis | results.

Record env := Env {
  uploadedFile : option file;
  fileId : option string;
  analysisData : jsval;
  recommendations : jsval;
  loading : bool;
  error : option string;
  currentStep : step;
  net : Api.world
}.

(** The [useState] initial values. *)
Definition initial (w : Api.world) : env :=
  {| uploadedFile := None; fileId := None; analysisData := value JNull;
     recommendations := value JNull; loading := false; error := None;
     currentStep := upload; net := w |}.

Definition setUploadedFile (f : option file) : task env unit :=
  modify (λ e, {| uploadedFile := f; fileId := fileId e; analysisData := analysisData e;
                  recommendations := recommendations e; loading := loading e;
                  error := error e; currentStep := currentStep e; net := net e |}).

Definition setFileId (id : option string) : task env unit :=
  modify (λ e, {| uploadedFile := uploadedFile e; fileId := id;
                  analysisData := analysisData e;
                  recommendations := recommendations e; loading := loading e;
                  error := error e; currentStep := currentStep e; net := net e |}).

Definition setAnalysisData (v : jsval) : task env unit :=
  modify (λ e, {| uploadedFile := uploadedFile e; fileId := fileId e; analysisData := v;
                  recommendations := recommendations e; loading := loading e;
                  error := error e; currentStep := currentStep e; net := net e |}).

Definition setRecommendations (v : jsval) : task env unit :=
  modify (λ e, {| uploadedFile := uploadedFile e; fileId := fileId e;
                  analysisData := analysisData e;
                  recommendations := v; loading := loading e;
                  error := error e; currentStep := currentStep e; net := net e |}).

Definition setLoading (b : bool) : task env unit :=
  modify (λ e, {| uploadedFile := uploadedFile e; fileId := fileId e;
                  analysisData := analysisData e;
                  recommendations := recommendations e; loading := b;
                  error := error e; currentStep := currentStep e; net := net e |}).

Definition setError (m : option string) : task env unit :=
  modify (λ e, {| uploadedFile := uploadedFile e; fileId := fileId e;
                  analysisData := analysisData e;
                  recommendations := recommendations e; loading := loading e;
                  error := m; currentStep := currentStep e; net := net e |}).

Definition setCurrentStep (st : step) : task env unit :=
  modify (λ e, {| uploadedFile := uploadedFile e; fileId := fileId e;
                  analysisData := analysisData e;
                  recommendations := recommendations e; loading := loading e;
                  error := error e; currentStep := st; net := net e |}).

Definition on_net {A} (m : task Api.world A) : task env A :=
  zoom net (λ w e, {| uploadedFile := uploadedFile e; fileId := fileId e;
                      analysisData := analysisData e;
                      recommendations := recommendations e; loading := loading e;
                      error := error e; currentStep := currentStep e; net := w |}) m.

(** [!fileId] for a state that holds [null] or a string. *)
Definition not_fileId (id : option string) : bool :=
  match id with
  | None => true
  | Some s => String.eqb s ""
  end.

Definition handleFileUpload (f : file) (id : option string) : task env unit :=
  setUploadedFile (Some f);;
  setFileId id;;
  setCurrentStep preview;;
  setError None.

Definition handleStartOver : task env unit :=
  setUploadedFile None;;
  setFileId None;;
  setAnalysisData (value JNull);;
  setRecommendations (value JNull);;
  setError None;;
  setCurrentStep upload.

Section WithApi.
(** [import { analyzeAndRecommend } from './services/api']: a promise of
    an object. *)
Variable analyzeAndRecommend : string → task Api.world object.

Definition handleAnalyze : task env unit :=
  id ← gets fileId;
  if not_fileId id then mret tt
  else
    setLoading true;;
    setError None;;
    setCurrentStep analysis;;
    try_finally
      (try_catch
         (result ← on_net (analyzeAndRecommend (default "" id));
          setAnalysisData (get result "analysis");;
          setRecommendations (get result "recommendations");;
          setCurrentStep results)
         (λ err,
            setError (Some (if String.eqb (message err) ""
                            then "Analysis failed. Please try again."
                            else message err));;
            setCurrentStep preview))
      (setLoading false).
End WithApi.

End App.

(** ** frontend/src/components/ImagePreview.jsx *)

Module ImagePreview.

Definition k : Z := 1024.
Definition sizes : list string := ["Bytes"; "KB"; "MB"; "GB"].

(** [Math.floor(Math.log(x) / Math.log(k))] for an integer [x >= 1], in
    exact arithmetic: how often [x] can be divided by [k] before it falls
    below [k]. *)
Fixpoint floor_log_from (fuel : nat) (k x : Z) : Z :=
  match fuel with
  | O => 0
  | S fuel' => if x <? k then 0 else 1 + floor_log_from fuel' k (x / k)
  end.

Definition floor_log (k x : Z) : Z :=
  floor_log_from (S (Z.to_nat (Z.log2 x))) k x.

(** [(x).toFixed(2)] for [x = num / den], as a count of hundredths: the
    nearest, the larger of two equally near. *)
Definition toFixed2 (num den : Z) : Z := (200 * num + den) / (2 * den).

(** The text of a number given in hundredths, as [parseFloat(...) + ''
    ] prints it: no trailing zeros, no point for a whole number. *)
Definition show_hundredths (n : Z) : string :=
  let whole := n / 100 in
  let frac := n mod 100 in
  if frac =? 0 then pretty whole
  else if frac mod 10 =? 0 then pretty whole +:+ "." +:+ pretty (frac / 10)
  else pretty whole +:+ "." +:+ pretty (frac / 10) +:+ pretty (frac mod 10).

(** [sizes[i]] joined to a string: ["undefined"] off the array. *)
Definition unit_text (i : Z) : string :=
  default "undefined" (sizes !! Z.to_nat i).

(** [formatFileSize(bytes)] for an integer [bytes]. A negative count makes
    every number in it [NaN]. *)
Definition formatFileSize (bytes : Z) : string :=
  if bytes =? 0 then "0 Bytes"
  else if bytes <? 0 then "NaN undefined"
  else
    let i := floor_log k bytes in
    show_hundredths (toFixed2 bytes (k ^ i)) +:+ " " +:+ unit_text i.

End ImagePreview.

(** ** frontend/src/App.jsx: the callbacks in any order *)

Module AppFlow.
Import Js App.

(** [{error && (...)}]: the banner shows a message that is not empty. *)
Definition error_banner (s : env) : option string :=
  match error s with
  | Some m => if String.eqb m "" then None else Some m
  | None => None
  end.

(** [handleAnalyze] runs in two turns of the event loop. The first goes up
    to its [await] and gives the file id the request is made for, if one
    is made. *)
Definition handleAnalyze_begin : task env (option string) :=
  id ← gets fileId;
  if not_fileId id then mret None
  else
    setLoading true;;
    setError None;;
    setCurrentStep analysis;;
    mret (Some (default "" id)).

(** The second goes from the [await] to the end, once the promise has
    settled. *)
Definition handleAnalyze_settle (outcome : settled object) : task env unit :=
  try_finally
    (try_catch
       (result ← of_settled outcome;
        setAnalysisData (get result "analysis");;
        setRecommendations (get result "recommendations");;
        setCurrentStep results)
       (λ err,
          setError (Some (if String.eqb (message err) ""
                          then "Analysis failed. Please try again."
                          else message err));;
          setCurrentStep preview))
    (setLoading false).

(** The states of the app between two turns of the event loop, with its
    callbacks run in any order. Nothing keeps a callback to the step it
    was offered on: the drop zone takes a file while an upload is on its
    way, so an upload can report on any step; an analysis can be asked for
    again while one is awaited; a promise can settle after Start Over.
    Every order is allowed here, with any outcome of a request, which
    covers every order the user and the network can produce. *)
Inductive reachable : env → Prop :=
| reach_initial w :
    reachable (initial w)
| reach_network s w :
    reachable s →
    reachable (on_net (λ _, (Resolved tt, w)) s).2
| reach_file_uploaded s f id :
    reachable s →
    reachable (handleFileUpload f id s).2
| reach_analyze_begin s :
    reachable s →
    reachable (handleAnalyze_begin s).2
| reach_analyze_settle s outcome :
    reachable s →
    reachable (handleAnalyze_settle outcome s).2
| reach_start_over s :
    reachable s →
    reachable (handleStartOver s).2.

End AppFlow.

(** ** The components on the real client *)

Module Wiring.
Import Js.

(** Awaiting a JSON value and reading a property off it, as both components
    do right after their [await]: off an object the read gives the
    property, off [null] it throws a [TypeError] inside the component's
    [try] (which its [catch] treats like a rejection; the message is the
    one V8 gives), off any other value it gives [undefined]. *)
Definition as_object {S} (prop : string) (m : task S json) : task S object :=
  j ← m;
  match j with
  | JNull =>
      throw (new_Error ("Cannot read properties of null (reading '" +:+ prop +:+ "')"))
  | JObj fields => mret fields
  | _ => mret []
  end.

Section Client.
Variable VITE_API_URL : option string.
Variable network : list Api.request → Api.request → settled http_response.

(** [handleAnalyze] of App.jsx over [analyzeAndRecommend] of api.js. *)
Definition handleAnalyze : task App.env unit :=
  App.handleAnalyze
    (λ fileId, as_object "analysis" (Api.analyzeAndRecommend VITE_API_URL network fileId)).

(** [handleFileUpload] of FileUpload.jsx over [uploadFile] of api.js. *)
Definition handleFileUpload (f : file) : task FileUpload.env unit :=
  FileUpload.handleFileUpload
    (λ f, as_object "file_id" (Api.uploadFile VITE_API_URL network f)) f.
End Client.

End Wiring.


(** ** Sample states, for the concrete runs further down *)

Module Samples.

(** A disk with the uploads directory and one uploaded selfie. *)
Definition one_upload : Py.disk :=
  <["uploads" := Py.Node Py.Directory 0]>
    (<["uploads/a1b2.jpg" := Py.Node Py.RegularFile 100]> ∅).

(** The same with a second upload; both are older than five minutes at
    time 1000. *)
Definition two_uploads : Py.disk :=
  <["uploads" := Py.Node Py.Directory 0]>
    (<["uploads/a.jpg" := Py.Node Py.RegularFile 0]>
       (<["uploads/b.jpg" := Py.Node Py.RegularFile 0]> ∅)).

(** The upload component at rest, and an [uploadFile] that always succeeds. *)
Definition idle_upload : FileUpload.env :=
  {| FileUpload.isDragging := false; FileUpload.uploading := false;
     FileUpload.error := None;
     FileUpload.net := {| Api.sent := []; Api.timers := [] |};
     FileUpload.uploadFile_calls := []; FileUpload.onFileUpload_calls := [] |}.

Definition upload_succeeds : Js.file → Js.task Api.world Js.object :=
  λ _ w, (Js.Resolved [("file_id", JStr "a1b2.jpg")], w).

(** The app's state after an upload, before the analysis. *)
Definition previewing : App.env :=
  {| App.uploadedFile := Some (Js.File "selfie.jpg" "image/jpeg" 5000000);
     App.fileId := Some "a1b2.jpg";
     App.analysisData := Js.value JNull;
     App.recommendations := Js.value JNull;
     App.loading := false;
     App.error := None;
     App.currentStep := App.preview;
     App.net := {| Api.sent := []; Api.timers := [] |} |}.

(** A network that is down: every request fails before an answer. *)
Definition offline : list Api.request → Api.request → Js.settled Js.http_response :=
  λ _ _, Js.Rejected {| Js.code := Some "ERR_NETWORK"; Js.message := "Network Error";
                        Js.response := None |}.


(** A detector that raises when the image is not on the disk. *)
Definition detector : string → Py.disk → Py.outcome json :=
  λ path d,
    match d !! path with
    | Some _ => Py.Returns (JObj [("face_shape", JStr "oval")])
    | None => Py.Raises (Py.OtherException "Could not read image")
    end.

(** A request that fails cold once and then succeeds. *)
Definition cold_once : nat → Js.settled Z :=
  λ attempt,
    match attempt with
    | O => Js.Rejected {| Js.code := Some "ERR_NETWORK"; Js.message := "Network Error";
                          Js.response := None |}
    | _ => Js.Resolved 7
    end.

End Samples.

(** * Properties *)

(** ** Deleting files: [cleanup_file], the [finally] block, the sweep *)

Section CleanupFacts.
Import Py Backend.

Lemma truthy_temp_path file_id : truthy ("uploads/" +:+ file_id) = true.
Proof. reflexivity. Qed.

(** The [finally] block on a regular file: the file goes, one line is printed. *)
Lemma privacy_cleanup_regular p (d : disk) n :
  truthy p = true → d !! p = Some n → kind n = RegularFile →
  privacy_cleanup (Some p) d = (Returns tt, delete p d, [PrivacyCleanup p]).
Proof.
  intros Ht Hp Hk. unfold privacy_cleanup. rewrite Ht.
  unfold mbind, py_bind, bind, os_path_exists.
  rewrite bool_decide_eq_true_2 by eauto.
  unfold try_except, os_remove, print. rewrite Hp, Hk. reflexivity.
Qed.

(** ... on a path that is not there: nothing happens. *)
Lemma privacy_cleanup_absent p (d : disk) :
  d !! p = None → privacy_cleanup (Some p) d = (Returns tt, d, []).
Proof.
  intros Hp. unfold privacy_cleanup. destruct (truthy p); [|reflexivity].
  unfold mbind, py_bind, bind, os_path_exists.
  rewrite Hp. rewrite bool_decide_eq_false_2 by (intros [? ?]; discriminate).
  reflexivity.
Qed.

(** ... on a directory: [os.remove] raises, the block prints and goes on. *)
Lemma privacy_cleanup_directory p (d : disk) n :
  truthy p = true → d !! p = Some n → kind n = Directory →
  privacy_cleanup (Some p) d
  = (Returns tt, d, [CleanupFailed (str (IsADirectoryError p))]).
Proof.
  intros Ht Hp Hk. unfold privacy_cleanup. rewrite Ht.
  unfold mbind, py_bind, bind, os_path_exists.
  rewrite bool_decide_eq_true_2 by eauto.
  unfold try_except, os_remove, print. rewrite Hp, Hk. reflexivity.
Qed.

(** Whatever is on the disk, the [finally] block ends normally. *)
Lemma privacy_cleanup_returns temp_path (d : disk) :
  result_of (privacy_cleanup temp_path d) = Returns tt.
Proof.
  destruct temp_path as [p|]; [|reflexivity].
  destruct (d !! p) as [n|] eqn:Hp.
  - destruct (truthy p) eqn:Ht.
    + destruct (kind n) eqn:Hk.
      * by erewrite privacy_cleanup_regular.
      * by erewrite privacy_cleanup_directory.
    + unfold privacy_cleanup. by rewrite Ht.
  - by rewrite privacy_cleanup_absent.
Qed.

(** *** [cleanup_file], case by case *)

Lemma cleanup_file_regular p delay (d : disk) n :
  d !! p = Some n → kind n = RegularFile →
  cleanup_file p delay d
  = (Returns tt, delete p d, (if 0 <? delay then [Slept delay] else []) ++ [Deleted p]).
Proof.
  intros Hp Hk. unfold cleanup_file, mbind, py_bind, bind, os_path_exists, try_except.
  destruct (0 <? delay); simpl;
    rewrite bool_decide_eq_true_2 by eauto;
    unfold os_remove, print; by rewrite Hp, Hk.
Qed.

Lemma cleanup_file_directory p delay (d : disk) n :
  d !! p = Some n → kind n = Directory →
  cleanup_file p delay d
  = (Returns tt, d, (if 0 <? delay then [Slept delay] else [])
                    ++ [CleanupError (str (IsADirectoryError p))]).
Proof.
  intros Hp Hk. unfold cleanup_file, mbind, py_bind, bind, os_path_exists, try_except.
  destruct (0 <? delay); simpl;
    rewrite bool_decide_eq_true_2 by eauto;
    unfold os_remove, print; by rewrite Hp, Hk.
Qed.

Lemma cleanup_file_absent p delay (d : disk) :
  d !! p = None →
  cleanup_file p delay d = (Returns tt, d, if 0 <? delay then [Slept delay] else []).
Proof.
  intros Hp. unfold cleanup_file, mbind, py_bind, bind, os_path_exists, try_except.
  destruct (0 <? delay); simpl;
    by rewrite bool_decide_eq_false_2 by (rewrite Hp; intros [? ?]; discriminate).
Qed.

Lemma cleanup_file_returns p delay (d : disk) :
  result_of (cleanup_file p delay d) = Returns tt.
Proof.
  destruct (d !! p) as [n|] eqn:Hp.
  - destruct (kind n) eqn:Hk.
    + by erewrite cleanup_file_regular.
    + by erewrite cleanup_file_directory.
  - by rewrite cleanup_file_absent.
Qed.

Lemma cleanup_file_twice p delay (d : disk) :
  disk_of (cleanup_file p delay (disk_of (cleanup_file p delay d)))
  = disk_of (cleanup_file p delay d).
Proof.
  destruct (d !! p) as [n|] eqn:Hp.
  - destruct (kind n) eqn:Hk.
    + rewrite !(cleanup_file_regular p delay d n Hp Hk).
      unfold disk_of; cbn [fst snd].
      by rewrite cleanup_file_absent by apply lookup_delete_eq.
    + rewrite !(cleanup_file_directory p delay d n Hp Hk).
      unfold disk_of; cbn [fst snd].
      by rewrite (cleanup_file_directory p delay d n Hp Hk).
  - rewrite !(cleanup_file_absent p delay d Hp).
    unfold disk_of; cbn [fst snd].
    by rewrite (cleanup_file_absent p delay d Hp).
Qed.

Lemma privacy_cleanup_twice temp_path (d : disk) :
  disk_of (privacy_cleanup temp_path (disk_of (privacy_cleanup temp_path d)))
  = disk_of (privacy_cleanup temp_path d).
Proof.
  destruct temp_path as [p|]; [|reflexivity].
  destruct (truthy p) eqn:Ht; [|unfold privacy_cleanup; by rewrite Ht].
  destruct (d !! p) as [n|] eqn:Hp.
  - destruct (kind n) eqn:Hk.
    + rewrite !(privacy_cleanup_regular p d n Ht Hp Hk).
      unfold disk_of; cbn [fst snd].
      by rewrite privacy_cleanup_absent by apply lookup_delete_eq.
    + rewrite !(privacy_cleanup_directory p d n Ht Hp Hk).
      unfold disk_of; cbn [fst snd].
      by rewrite (privacy_cleanup_directory p d n Ht Hp Hk).
  - rewrite !(privacy_cleanup_absent p d Hp).
    unfold disk_of; cbn [fst snd].
    by rewrite (privacy_cleanup_absent p d Hp).
Qed.

(** *** The sweep *)

(** What the loop raises is of class [Exception]. *)
Lemma sweep_raises_Exception now names (d : disk) e :
  result_of (sweep now names d) = Raises e → isinstance_Exception e = true.
Proof.
  revert d. induction names as [|filename rest IH]; intros d; [discriminate|].
  simpl. unfold mbind, py_bind, bind, os_path_getmtime.
  destruct (d !! os_path_join uploads_dir filename) as [n|] eqn:Hp; simpl.
  - destruct (mtime n <? now - 300).
    + unfold os_remove. rewrite Hp. destruct (kind n); simpl.
      * specialize (IH (delete (os_path_join uploads_dir filename) d)).
        unfold result_of in *.
        destruct (sweep now rest _) as [[r d2] l2]; simpl in *. exact IH.
      * unfold result_of; simpl. by intros [= <-].
    + simpl. specialize (IH d). unfold result_of in *.
      destruct (sweep now rest d) as [[r d2] l2]; simpl in *. exact IH.
  - unfold result_of; simpl. by intros [= <-].
Qed.

(** Without an uploads directory a turn of the sweep does nothing but wait. *)
Lemma periodic_cleanup_pass_no_directory now (d : disk) :
  d !! uploads_dir = None →
  periodic_cleanup_pass now d = (Returns tt, d, [Slept 300]).
Proof.
  intros Hu. unfold periodic_cleanup_pass, try_except, asyncio_sleep,
    mbind, py_bind, bind, os_path_exists.
  by rewrite bool_decide_eq_false_2 by (rewrite Hu; intros [? ?]; discriminate).
Qed.

(** *** A turn of the sweep over regular files *)

Lemma strip_prefix_Some p : ∀ s r, strip_prefix p s = Some r → s = p +:+ r.
Proof.
  induction p as [|a p IH]; intros [|b s] r; simpl; try done.
  - by intros [= <-].
  - by intros [= <-].
  - destruct (Ascii.eqb_spec a b) as [->|]; [|done].
    intros Hs. apply IH in Hs. by subst.
Qed.

Lemma has_slash_no_root name :
  has_slash name = false → os_path_join uploads_dir name = "uploads/" +:+ name.
Proof.
  unfold os_path_join. destruct name as [|c name]; [done|]. simpl.
  by destruct (Ascii.eqb c "/").
Qed.

Lemma entry_of_Some p name :
  entry_of uploads_dir p = Some name →
  p = "uploads/" +:+ name ∧ has_slash name = false.
Proof.
  unfold entry_of. destruct (strip_prefix _ p) as [r|] eqn:Hs; [|done].
  apply strip_prefix_Some in Hs.
  destruct (has_slash r) eqn:Hr; simpl; [done|].
  destruct (String.eqb r ""); [done|]. by intros [= <-].
Qed.

(** The listing names each entry once, and every name in it is a path on
    the disk. *)
Lemma listing_NoDup (d : disk) :
  NoDup (omap (entry_of uploads_dir) (map_to_list d).*1).
Proof.
  pose proof (NoDup_fst_map_to_list d) as Hnd.
  induction Hnd as [|p ps Hp Hnd IH]; simpl; [constructor|].
  destruct (entry_of uploads_dir p) as [name|] eqn:He; [|done].
  constructor; [|done].
  intros (q & Hq & Heq)%list_elem_of_omap.
  apply entry_of_Some in He as [-> _]. apply entry_of_Some in Heq as [-> _]. done.
Qed.

Lemma listing_elem (d : disk) name :
  name ∈ omap (entry_of uploads_dir) (map_to_list d).*1 →
  has_slash name = false ∧ is_Some (d !! ("uploads/" +:+ name)).
Proof.
  intros (p & Hp & He)%list_elem_of_omap.
  apply entry_of_Some in He as [-> Hs]. split; [done|].
  apply list_elem_of_fmap in Hp as ([q n] & -> & Hq).
  apply elem_of_map_to_list in Hq. eauto.
Qed.

Lemma entry_in_listing (d : disk) p name :
  entry_of uploads_dir p = Some name → is_Some (d !! p) →
  name ∈ omap (entry_of uploads_dir) (map_to_list d).*1.
Proof.
  intros He [n Hn]. apply list_elem_of_omap. exists p. split; [|done].
  apply list_elem_of_fmap. exists (p, n). split; [done|].
  by apply elem_of_map_to_list.
Qed.

(** One step of the loop on a regular file: an old one is removed, a
    recent one is left. *)
Lemma sweep_cons_regular now name rest (d : disk) n :
  has_slash name = false →
  d !! ("uploads/" +:+ name) = Some n → kind n = RegularFile →
  sweep now (name :: rest) d
  = if mtime n <? now - 300
    then let '(r, d2, l2) := sweep now rest (delete ("uploads/" +:+ name) d) in
         (r, d2, PeriodicCleanup ("uploads/" +:+ name) :: l2)
    else sweep now rest d.
Proof.
  intros Hs Hp Hk. simpl. rewrite (has_slash_no_root name Hs).
  unfold mbind, py_bind, bind, os_path_getmtime. rewrite Hp.
  destruct (mtime n <? now - 300).
  - unfold os_remove, print. rewrite Hp, Hk.
    by destruct (sweep now rest _) as [[r d2] l2].
  - simpl. by destruct (sweep now rest d) as [[r d2] l2].
Qed.

(** The loop over distinct names of regular files: it ends normally, prints
    no error, removes the old ones among them and leaves every other path. *)
Lemma sweep_regular now names : ∀ d : disk,
  NoDup names →
  (∀ name, name ∈ names →
     has_slash name = false
     ∧ ∃ n, d !! ("uploads/" +:+ name) = Some n ∧ kind n = RegularFile) →
  result_of (sweep now names d) = Returns tt
  ∧ (∀ msg, PeriodicCleanupError msg ∉ log_of (sweep now names d))
  ∧ ∀ p, disk_of (sweep now names d) !! p
         = match d !! p with
           | Some n =>
               if bool_decide (mtime n < now - 300)
               then if bool_decide (p ∈ (λ name, "uploads/" +:+ name) <$> names)
                    then None else Some n
               else Some n
           | None => None
           end.
Proof.
  induction names as [|name rest IH]; intros d Hnd Hall.
  - split_and!; [done| |].
    + intros msg Hin. unfold log_of in Hin. simpl in Hin. by apply elem_of_nil in Hin.
    + intros p. unfold disk_of; simpl. destruct (d !! p) as [n|]; [|done].
      by case_bool_decide.
  - apply NoDup_cons in Hnd as [Hnotin Hnd].
    destruct (Hall name ltac:(left)) as (Hs & n & Hp & Hk).
    rewrite (sweep_cons_regular now name rest d n Hs Hp Hk).
    assert (∀ p, p ≠ "uploads/" +:+ name →
              bool_decide (p ∈ (λ name, "uploads/" +:+ name) <$> name :: rest)
              = bool_decide (p ∈ (λ name, "uploads/" +:+ name) <$> rest)) as Hother.
    { intros p Hne. apply bool_decide_ext. rewrite fmap_cons, elem_of_cons. tauto. }
    destruct (Z.ltb_spec (mtime n) (now - 300)) as [Hold|Hnew].
    + destruct (IH (delete ("uploads/" +:+ name) d) Hnd) as (Hr & Hl & Hd).
      { intros name' Hin. destruct (Hall name' ltac:(by right)) as (Hs' & n' & Hp' & Hk').
        split; [done|]. exists n'. split; [|done].
        rewrite lookup_delete_ne; [done|].
        intros Heq%(inj (String.app "uploads/")). by subst. }
      unfold result_of, disk_of, log_of in *.
      destruct (sweep now rest _) as [[r d2] l2]; cbn [fst snd] in *.
      split_and!; [done| |].
      * intros msg [Heq|Hin]%elem_of_cons; [done|]. by eapply Hl.
      * intros p. rewrite Hd.
        destruct (decide (p = "uploads/" +:+ name)) as [->|Hne].
        -- rewrite lookup_delete_eq, Hp.
           rewrite bool_decide_eq_true_2 by done.
           by rewrite bool_decide_eq_true_2 by (rewrite fmap_cons; left).
        -- rewrite lookup_delete_ne by done. by rewrite Hother.
    + destruct (IH d Hnd) as (Hr & Hl & Hd).
      { intros name' Hin. by apply Hall; right. }
      split_and!; [done..|].
      intros p. rewrite Hd.
      destruct (decide (p = "uploads/" +:+ name)) as [->|Hne].
      * rewrite Hp. by rewrite (bool_decide_eq_false_2 (mtime n < now - 300)) by lia.
      * by rewrite Hother.
Qed.

(** A turn of the sweep over an uploads directory that holds regular files
    only: it raises nothing and prints no error, every entry last modified
    more than 300 s before [now] is gone, and every other path of the disk
    is as it was. *)
Theorem sweep_removes_stale_uploads now (d : disk) dir :
  d !! uploads_dir = Some dir → kind dir = Directory →
  (∀ p name n, entry_of uploads_dir p = Some name → d !! p = Some n →
               kind n = RegularFile) →
  let run := periodic_cleanup_pass now d in
  result_of run = Returns tt
  ∧ (∀ msg, PeriodicCleanupError msg ∉ log_of run)
  ∧ ∀ p, disk_of run !! p
         = match d !! p with
           | Some n =>
               if bool_decide (is_Some (entry_of uploads_dir p) ∧ mtime n < now - 300)
               then None else Some n
           | None => None
           end.
Proof.
  intros Hu Hk Hreg run. subst run.
  set (names := omap (entry_of uploads_dir) (map_to_list d).*1).
  destruct (sweep_regular now names d (listing_NoDup d)) as (Hr & Hl & Hd).
  { intros name Hin. destruct (listing_elem d name Hin) as [Hs [n Hn]].
    split; [done|]. exists n. split; [done|].
    apply list_elem_of_omap in Hin as (q & _ & Hq).
    pose proof Hq as [-> _]%entry_of_Some. by eapply Hreg. }
  assert (periodic_cleanup_pass now d
          = (result_of (sweep now names d), disk_of (sweep now names d),
             log_of (sweep now names d) ++ [Slept 300])) as ->.
  { unfold periodic_cleanup_pass, try_except, asyncio_sleep,
      mbind, py_bind, bind, os_path_exists, os_listdir.
    rewrite bool_decide_eq_true_2 by eauto. rewrite Hu, Hk. fold names.
    unfold result_of, disk_of, log_of in *.
    destruct (sweep now names d) as [[r d2] l2]; cbn [fst snd] in *. by subst r. }
  unfold result_of at 1, log_of at 1, disk_of at 1; cbn [fst snd].
  split_and!; [done| |].
  - intros msg [Hin|Hin]%elem_of_app; [by eapply Hl|].
    by apply list_elem_of_singleton in Hin.
  - intros p. rewrite Hd. destruct (d !! p) as [n|] eqn:Hp; [|done].
    destruct (decide (mtime n < now - 300)) as [Hold|Hnew].
    + rewrite (bool_decide_eq_true_2 (mtime n < now - 300)) by done.
      apply (f_equal (λ b : bool, if b then None else Some n)).
      apply bool_decide_ext. split.
      * intros (name & -> & Hin)%list_elem_of_fmap. split; [|done].
        apply list_elem_of_omap in Hin as (q & _ & Hq).
        pose proof Hq as [-> _]%entry_of_Some. eauto.
      * intros [[name Hname] _]. apply list_elem_of_fmap. exists name.
        split; [by apply entry_of_Some in Hname as [-> _]|].
        by eapply entry_in_listing.
    + rewrite (bool_decide_eq_false_2 (mtime n < now - 300)) by done.
      by rewrite bool_decide_eq_false_2 by tauto.
Qed.

End CleanupFacts.

(** ** The combined handler *)

Section HandlerFacts.
Import Py Backend.

Variable analyze_face : string → disk → outcome json.
Variable get_recommendations : json → outcome json.

Lemma guarded_body_frame temp_path d :
  disk_of (guarded_body analyze_face get_recommendations temp_path d) = d
  ∧ log_of (guarded_body analyze_face get_recommendations temp_path d) = [].
Proof.
  unfold guarded_body, try_except, mbind, py_bind, bind,
    face_analyzer_analyze_face, claude_client_get_recommendations, lift, mret, py_ret, ret.
  destruct (analyze_face _ d) as [a|e]; simpl.
  - destruct (get_recommendations a) as [r|e]; simpl; [done|].
    destruct (isinstance_Exception e); done.
  - destruct (isinstance_Exception e); done.
Qed.

(** The handler is its guarded body followed by the [finally] block, run
    on the disk the body left, which is the disk it found. *)
Lemma handler_run file_id (d : disk) :
  let temp_path := "uploads/" +:+ file_id in
  let run := analyze_and_recommend analyze_face get_recommendations file_id d in
  result_of run = result_of (guarded_body analyze_face get_recommendations temp_path d)
  ∧ disk_of run = disk_of (privacy_cleanup (Some temp_path) d)
  ∧ log_of run = log_of (privacy_cleanup (Some temp_path) d).
Proof.
  intros temp_path run. subst run. unfold analyze_and_recommend, try_finally.
  fold temp_path.
  destruct (guarded_body_frame temp_path d) as [Hd Hl].
  pose proof (privacy_cleanup_returns (Some temp_path) d) as Hr.
  unfold result_of, disk_of, log_of in *.
  destruct (guarded_body _ _ temp_path d) as [[r d1] l1]. simpl in Hd, Hl. subst d1 l1.
  destruct (privacy_cleanup (Some temp_path) d) as [[o d2] l2]. simpl in Hr. subst o.
  done.
Qed.

(** C1. For every invocation of the combined handler on an uploaded file
    that exists (a regular file at [uploads/<file_id>]), whatever the two
    services do (return, raise an [Exception], raise outside [Exception]),
    the file is gone from the disk when the handler completes; no other
    path is touched, and the deletion is the one thing printed. *)
Theorem upload_deleted_when_handler_completes file_id (d : disk) n :
  d !! ("uploads/" +:+ file_id) = Some n →
  kind n = RegularFile →
  let run := analyze_and_recommend analyze_face get_recommendations file_id d in
  disk_of run !! ("uploads/" +:+ file_id) = None
  ∧ (∀ p, p ≠ "uploads/" +:+ file_id → disk_of run !! p = d !! p)
  ∧ log_of run = [PrivacyCleanup ("uploads/" +:+ file_id)].
Proof.
  intros Hp Hk run. subst run.
  destruct (handler_run file_id d) as (_ & Hd & Hl). rewrite Hd, Hl.
  rewrite (privacy_cleanup_regular _ _ n) by (auto using truthy_temp_path).
  unfold disk_of, log_of; simpl. split_and!; [|intros q Hq|done].
  - apply lookup_delete_eq.
  - by apply lookup_delete_ne.
Qed.

(** C5. When a statement of the handler's [try] body raises an exception
    [e] of class [Exception] (the landmark detector, or the recommendation
    client after it), the handler does not raise: it returns the object
    [{"error": str(e), "status": "error"}]. *)
Theorem exception_returned_as_error_json file_id (d : disk) e :
  isinstance_Exception e = true →
  (analyze_face ("uploads/" +:+ file_id) d = Raises e
   ∨ ∃ a, analyze_face ("uploads/" +:+ file_id) d = Returns a
          ∧ get_recommendations a = Raises e) →
  result_of (analyze_and_recommend analyze_face get_recommendations file_id d)
  = Returns (JObj [("error", JStr (str e)); ("status", JStr "error")]).
Proof.
  intros He Hbody.
  destruct (handler_run file_id d) as (Hr & _ & _). rewrite Hr. clear Hr.
  unfold guarded_body, try_except, mbind, py_bind, bind,
    face_analyzer_analyze_face, claude_client_get_recommendations, lift.
  destruct Hbody as [Ha | (a & Ha & Hg)]; rewrite Ha; simpl.
  - by rewrite He.
  - rewrite Hg; simpl. by rewrite He.
Qed.

(** What C5 leaves out: an exception outside [Exception] passes through
    [except Exception] and leaves the handler, after the [finally] block. *)
Lemma base_exception_propagates file_id (d : disk) msg :
  analyze_face ("uploads/" +:+ file_id) d = Raises (BaseExceptionOnly msg) →
  result_of (analyze_and_recommend analyze_face get_recommendations file_id d)
  = Raises (BaseExceptionOnly msg).
Proof.
  intros Ha. destruct (handler_run file_id d) as (Hr & _ & _). rewrite Hr.
  unfold guarded_body, try_except, mbind, py_bind, bind, face_analyzer_analyze_face.
  by rewrite Ha.
Qed.

(** The success path: both services return, and the handler returns the
    three-field object. *)
Lemma success_response file_id (d : disk) a r :
  analyze_face ("uploads/" +:+ file_id) d = Returns a →
  get_recommendations a = Returns r →
  result_of (analyze_and_recommend analyze_face get_recommendations file_id d)
  = Returns (JObj [("analysis", a); ("recommendations", r); ("status", JStr "success")]).
Proof.
  intros Ha Hg. destruct (handler_run file_id d) as (Hr & _ & _). rewrite Hr.
  unfold guarded_body, try_except, mbind, py_bind, bind,
    face_analyzer_analyze_face, claude_client_get_recommendations, lift.
  rewrite Ha; simpl. by rewrite Hg.
Qed.

End HandlerFacts.

(** C5 as stated fails for an exception outside class [Exception]. The
    request is cancelled while the recommendation client is awaited, after
    a good analysis: [except Exception] does not catch [CancelledError],
    so no object is returned and the exception leaves the handler, once
    the [finally] block has deleted the upload. *)
Lemma cancelled_request_leaves_handler :
  let run :=
    Backend.analyze_and_recommend
      (λ _ _, Py.Returns (JObj [("face_shape", JStr "oval")]))
      (λ _, Py.Raises (Py.BaseExceptionOnly "CancelledError"))
      "a1b2.jpg" Samples.one_upload in
  Py.isinstance_Exception (Py.BaseExceptionOnly "CancelledError") = false
  ∧ Py.result_of run = Py.Raises (Py.BaseExceptionOnly "CancelledError")
  ∧ Py.disk_of run !! "uploads/a1b2.jpg" = None.
Proof. vm_compute. done. Qed.


(** ** The axios client *)

Section ApiFacts.
Import Js Api.

Lemma is_cold_start_code_spec c :
  is_cold_start_code c = true ↔ c = Some "ERR_NETWORK" ∨ c = Some "ECONNABORTED".
Proof.
  destruct c as [c|]; simpl.
  - rewrite orb_true_iff, !String.eqb_eq.
    split; (intros [H|H]; [left|right]); congruence.
  - split; [discriminate|intros [H|H]; discriminate].
Qed.

(** One turn of [retryRequest], by what [fn] did. *)
Lemma retryRequest_unfold {A} (fn : task world A) retries delay w :
  retryRequest fn retries delay w
  = match fn w with
    | (Resolved a, w1) => (Resolved a, w1)
    | (Rejected e, w1) =>
        match retries with
        | S n =>
            if is_cold_start_code (code e)
            then retryRequest fn n (Qred (delay * (3 # 2)))
                   {| sent := sent w1; timers := timers w1 ++ [delay] |}
            else (Rejected e, w1)
        | O => (Rejected e, w1)
        end
    end.
Proof.
  destruct retries; simpl; unfold try_catch;
    destruct (fn w) as [[a|e] w1]; try reflexivity.
  destruct (is_cold_start_code (code e)); reflexivity.
Qed.

(** The timers [retryRequest] sets, when [fn] sets none of its own, are the
    first few of the backoff schedule, at most [retries] of them. *)
Lemma retryRequest_timers {A} (fn : task world A) retries :
  (∀ w, timers (fn w).2 = timers w) →
  ∀ delay w, ∃ n, (n ≤ retries)%nat
    ∧ timers (retryRequest fn retries delay w).2 = timers w ++ backoff n delay.
Proof.
  intros Hfn. induction retries as [|retries IH]; intros delay w;
    rewrite retryRequest_unfold; specialize (Hfn w);
    destruct (fn w) as [[a|e] w1]; simpl in *.
  - exists 0%nat. by rewrite app_nil_r.
  - exists 0%nat. by rewrite app_nil_r.
  - exists 0%nat. split; [lia|]. by rewrite app_nil_r.
  - destruct (is_cold_start_code (code e)).
    + destruct (IH (Qred (delay * (3 # 2)))
                  {| sent := sent w1; timers := timers w1 ++ [delay] |}) as (n & Hn & Ht).
      exists (S n). split; [lia|]. rewrite Ht. simpl. rewrite Hfn.
      by rewrite <- app_assoc.
    + exists 0%nat. split; [lia|]. by rewrite app_nil_r.
Qed.

(** The schedule is geometric: the [i]-th delay is [delay * 1.5^i]. *)
Lemma backoff_geometric n : ∀ delay i d,
  backoff n delay !! i = Some d → (d == delay * (3 # 2) ^ Z.of_nat i)%Q.
Proof.
  induction n as [|n IH]; intros delay i d; [done|].
  destruct i as [|i].
  - intros [= <-]. change (Z.of_nat 0) with 0%Z. simpl. ring.
  - change (backoff (S n) delay !! S i)
      with (backoff n (Qred (delay * (3 # 2))) !! i).
    intros Hi. apply IH in Hi. rewrite Hi, Qred_correct.
    rewrite Nat2Z.inj_succ, <- Z.add_1_r.
    rewrite Qpower_plus by discriminate. simpl. ring.
Qed.

(** C2. [retryRequest] is a backoff policy for cold-start network errors
    only. For every [fn]: a success is returned as it is; a failure whose
    [code] is neither [ERR_NETWORK] nor [ECONNABORTED] is rethrown at once,
    with no timer set and no further call; a failure with one of the two
    codes, while retries are left, is retried after [delay] with one retry
    less and the delay times 1.5; with no retry left it is rethrown. The
    timers set are the first [n <= retries] delays of the geometric
    schedule [delay * 1.5^i]; the defaults are 2 retries from 2000 ms, so
    the waits are 2000 and 3000 ms at most; and [analyzeAndRecommend] is
    [retryRequest] with these defaults around its POST. *)
Theorem retry_policy {A} (fn : task world A) retries delay w :
  (∀ a w1, fn w = (Resolved a, w1) →
     retryRequest fn retries delay w = (Resolved a, w1))
  ∧ (∀ e w1, fn w = (Rejected e, w1) →
       code e ≠ Some "ERR_NETWORK" → code e ≠ Some "ECONNABORTED" →
       retryRequest fn retries delay w = (Rejected e, w1))
  ∧ (∀ e w1, fn w = (Rejected e, w1) →
       code e = Some "ERR_NETWORK" ∨ code e = Some "ECONNABORTED" →
       retryRequest fn (S retries) delay w
       = retryRequest fn retries (Qred (delay * (3 # 2)))
           {| sent := sent w1; timers := timers w1 ++ [delay] |})
  ∧ (∀ e w1, fn w = (Rejected e, w1) →
       retryRequest fn 0 delay w = (Rejected e, w1))
  ∧ ((∀ w', timers (fn w').2 = timers w') →
       ∃ n, (n ≤ retries)%nat
         ∧ timers (retryRequest fn retries delay w).2 = timers w ++ backoff n delay
         ∧ ∀ i d, backoff n delay !! i = Some d →
                  (d == delay * (3 # 2) ^ Z.of_nat i)%Q)
  ∧ default_retries = 2%nat
  ∧ backoff default_retries default_delay = [2000 # 1; 3000 # 1]%Q
  ∧ (∀ VITE_API_URL network fileId,
       analyzeAndRecommend VITE_API_URL network fileId
       = retryRequest
           (response ← api_post VITE_API_URL network "/analyze-and-recommend" null_body
              {| cfg_params := [("file_id", fileId)]; cfg_headers := [];
                 cfg_timeout := None; cfg_signal := None; cfg_cancelToken := None |};
            mret (data response))
           2 (2000 # 1)).
Proof.
  split_and!.
  - intros a w1 Hfn. rewrite retryRequest_unfold, Hfn. done.
  - intros e w1 Hfn Hn Ha. rewrite retryRequest_unfold, Hfn.
    destruct retries; [done|].
    destruct (is_cold_start_code (code e)) eqn:Hc; [|done].
    apply is_cold_start_code_spec in Hc as [?|?]; done.
  - intros e w1 Hfn Hc. rewrite retryRequest_unfold, Hfn.
    apply is_cold_start_code_spec in Hc. by rewrite Hc.
  - intros e w1 Hfn. rewrite retryRequest_unfold, Hfn. done.
  - intros Hfn. destruct (retryRequest_timers fn retries Hfn delay w) as (n & Hn & Ht).
    exists n. split_and!; [done..|]. apply backoff_geometric.
  - done.
  - done.
  - done.
Qed.

(** The policy at work: a network that fails cold twice and then answers. *)
Lemma retry_policy_witness :
  let fn : task world Z := λ w,
    match length (timers w) with
    | 0%nat | 1%nat =>
        (Rejected {| code := Some "ERR_NETWORK"; message := "Network Error";
                     response := None |}, w)
    | _ => (Resolved 7, w)
    end in
  let w0 := {| sent := []; timers := [] |} in
  retryRequest fn 2 (2000 # 1) w0
  = retryRequest fn 1 (3000 # 1) {| sent := []; timers := [2000 # 1]%Q |}
  ∧ retryRequest fn 2 (2000 # 1) w0
    = (Resolved 7, {| sent := []; timers := [2000 # 1; 3000 # 1]%Q |}).
Proof.
  intros fn w0.
  destruct (retry_policy fn 1 (2000 # 1) w0) as (_ & _ & Hretry & _).
  split.
  - exact (Hretry (Error (Some "ERR_NETWORK") "Network Error" None) w0
             eq_refl (or_introl eq_refl)).
  - reflexivity.
Defined.

Section Client.
Variable VITE_API_URL : option string.
Variable network : list request → request → settled http_response.

(** What the response interceptor lets out carries no [code]. *)
Lemma response_rejected_code e : code (response_rejected e) = None.
Proof.
  unfold response_rejected.
  repeat case_bool_decide; try reflexivity.
  destruct (response_detail e) as [|j]; [|destruct (truthy_json j)];
    try reflexivity; destruct (String.eqb (message e) ""); reflexivity.
Qed.

(** One call through the instance: one request sent, no timer set. *)
Lemma api_request_run m url payload cfg w :
  api_request VITE_API_URL network m url payload cfg w
  = (match network (sent w) (mergeConfig VITE_API_URL m url payload cfg) with
     | Resolved r => Resolved r
     | Rejected e => Rejected (response_rejected e)
     end,
     {| sent := sent w ++ [mergeConfig VITE_API_URL m url payload cfg];
        timers := timers w |}).
Proof.
  unfold api_request, try_catch, dispatch, throw.
  destruct (network _ _); reflexivity.
Qed.

Lemma api_then_data_run m url payload cfg w :
  (response ← api_request VITE_API_URL network m url payload cfg;
   mret (data response)) w
  = (match network (sent w) (mergeConfig VITE_API_URL m url payload cfg) with
     | Resolved r => Resolved (data r)
     | Rejected e => Rejected (response_rejected e)
     end,
     {| sent := sent w ++ [mergeConfig VITE_API_URL m url payload cfg];
        timers := timers w |}).
Proof.
  unfold mbind, task_bind, bind. rewrite api_request_run.
  destruct (network _ _); reflexivity.
Qed.

(** No failure of the POST reaches [retryRequest] with a code, so
    [analyzeAndRecommend] makes its request once and sets no timer. *)
Lemma analyzeAndRecommend_run fileId w :
  let req := mergeConfig VITE_API_URL POST "/analyze-and-recommend" null_body
               {| cfg_params := [("file_id", fileId)]; cfg_headers := [];
                  cfg_timeout := None; cfg_signal := None;
                  cfg_cancelToken := None |} in
  analyzeAndRecommend VITE_API_URL network fileId w
  = (match network (sent w) req with
     | Resolved r => Resolved (data r)
     | Rejected e => Rejected (response_rejected e)
     end,
     {| sent := sent w ++ [req]; timers := timers w |}).
Proof.
  intros req. unfold analyzeAndRecommend, api_post.
  rewrite retryRequest_unfold, api_then_data_run. fold req.
  destruct (network (sent w) req) as [r|e]; [done|].
  unfold default_retries. by rewrite response_rejected_code.
Qed.
(** The retry helper never acts for [analyzeAndRecommend]: whatever the
    network does, also when it fails cold every time, one request is sent,
    no timer is set, and a failure comes out with no [code]. *)
Theorem analyzeAndRecommend_never_retries fileId w :
  let out := analyzeAndRecommend VITE_API_URL network fileId w in
  timers out.2 = timers w
  ∧ length (sent out.2) = S (length (sent w))
  ∧ ∀ e, out.1 = Rejected e → code e = None.
Proof.
  intros out. subst out. rewrite analyzeAndRecommend_run.
  split_and!; [done| |].
  - simpl. rewrite length_app. simpl. lia.
  - simpl. destruct (network _ _); [done|].
    intros ? [= <-]. apply response_rejected_code.
Qed.

(** Each operation passes one call to the shared instance. *)
Lemma run_operation_sent (op : operation) w :
  sent (run_operation VITE_API_URL network op w).2
  = sent w ++
    [match op with
     | op_uploadFile f =>
         mergeConfig VITE_API_URL POST "/upload" (form_data [("file", f)])
           {| cfg_params := [];
              cfg_headers := [("Content-Type", "multipart/form-data")];
              cfg_timeout := None; cfg_signal := None; cfg_cancelToken := None |}
     | op_analyzeImage fileId =>
         mergeConfig VITE_API_URL POST "/analyze" null_body
           {| cfg_params := [("file_id", fileId)]; cfg_headers := [];
              cfg_timeout := None; cfg_signal := None; cfg_cancelToken := None |}
     | op_getRecommendations analysisData =>
         mergeConfig VITE_API_URL POST "/recommend" (json_body analysisData) no_config
     | op_analyzeAndRecommend fileId =>
         mergeConfig VITE_API_URL POST "/analyze-and-recommend" null_body
           {| cfg_params := [("file_id", fileId)]; cfg_headers := [];
              cfg_timeout := None; cfg_signal := None; cfg_cancelToken := None |}
     | op_cleanupFile fileId =>
         mergeConfig VITE_API_URL DELETE ("/cleanup/" +:+ fileId) no_body no_config
     | op_healthCheck =>
         mergeConfig VITE_API_URL GET "/" no_body no_config
     end].
Proof.
  destruct op; simpl run_operation.
  - unfold uploadFile, api_post. by rewrite api_then_data_run.
  - unfold analyzeImage, api_post. by rewrite api_then_data_run.
  - unfold getRecommendations, api_post. by rewrite api_then_data_run.
  - by rewrite analyzeAndRecommend_run.
  - unfold cleanupFile, api_delete. by rewrite api_then_data_run.
  - unfold healthCheck, api_get. by rewrite api_then_data_run.
Qed.

(** C7. The client's surface is the six exported operations, and each
    issues one request: [uploadFile] a POST to /upload with the file as
    multipart form data, [analyzeImage] a POST to /analyze with the
    query parameter file_id, [getRecommendations] a POST to /recommend
    with the analysis as body, [analyzeAndRecommend] a POST to
    /analyze-and-recommend with the query parameter file_id,
    [cleanupFile] a DELETE to /cleanup/<file_id>, [healthCheck] a GET
    to /. *)
Theorem six_operations_requests (op : operation) w :
  sent (run_operation VITE_API_URL network op w).2
  = sent w ++
    [match op with
     | op_uploadFile f =>
         {| req_method := POST; req_baseURL := API_BASE_URL VITE_API_URL;
            req_url := "/upload"; req_params := [];
            req_data := form_data [("file", f)];
            req_headers := [("Content-Type", "multipart/form-data")];
            req_timeout := 30000; req_signal := None; req_cancelToken := None |}
     | op_analyzeImage fileId =>
         {| req_method := POST; req_baseURL := API_BASE_URL VITE_API_URL;
            req_url := "/analyze"; req_params := [("file_id", fileId)];
            req_data := null_body;
            req_headers := [("Content-Type", "application/json")];
            req_timeout := 30000; req_signal := None; req_cancelToken := None |}
     | op_getRecommendations analysisData =>
         {| req_method := POST; req_baseURL := API_BASE_URL VITE_API_URL;
            req_url := "/recommend"; req_params := [];
            req_data := json_body analysisData;
            req_headers := [("Content-Type", "application/json")];
            req_timeout := 30000; req_signal := None; req_cancelToken := None |}
     | op_analyzeAndRecommend fileId =>
         {| req_method := POST; req_baseURL := API_BASE_URL VITE_API_URL;
            req_url := "/analyze-and-recommend"; req_params := [("file_id", fileId)];
            req_data := null_body;
            req_headers := [("Content-Type", "application/json")];
            req_timeout := 30000; req_signal := None; req_cancelToken := None |}
     | op_cleanupFile fileId =>
         {| req_method := DELETE; req_baseURL := API_BASE_URL VITE_API_URL;
            req_url := "/cleanup/" +:+ fileId; req_params := [];
            req_data := no_body;
            req_headers := [("Content-Type", "application/json")];
            req_timeout := 30000; req_signal := None; req_cancelToken := None |}
     | op_healthCheck =>
         {| req_method := GET; req_baseURL := API_BASE_URL VITE_API_URL;
            req_url := "/"; req_params := [];
            req_data := no_body;
            req_headers := [("Content-Type", "application/json")];
            req_timeout := 30000; req_signal := None; req_cancelToken := None |}
     end].
Proof. rewrite run_operation_sent. by destruct op. Qed.

(** A request made through the shared instance takes the instance's
    timeout unless the call's config names one, and can be cancelled
    only through a handle the call's config passes. *)
Lemma mergeConfig_timeout m url payload cfg :
  req_timeout (mergeConfig VITE_API_URL m url payload cfg)
  = default 30000 (cfg_timeout cfg)
  ∧ req_signal (mergeConfig VITE_API_URL m url payload cfg) = cfg_signal cfg
  ∧ req_cancelToken (mergeConfig VITE_API_URL m url payload cfg) = cfg_cancelToken cfg.
Proof. done. Qed.

(** C8. Each of the six operations sends exactly one request, through the
    shared instance: with the instance's base URL and its timeout of
    30000 ms, with no abort signal and no cancel token. It sets no timer
    of its own, and it ends as that one request ends: with the response's
    data, or with the error the response interceptor makes of the
    rejection. So nothing but the timeout of the instance cuts a request
    short. *)
Theorem timeout_is_the_only_cancellation (op : operation) w :
  ∃ req,
    run_operation VITE_API_URL network op w
    = (match network (sent w) req with
       | Resolved r => Resolved (data r)
       | Rejected e => Rejected (response_rejected e)
       end,
       {| sent := sent w ++ [req]; timers := timers w |})
    ∧ req_baseURL req = API_BASE_URL VITE_API_URL
    ∧ req_timeout req = 30000
    ∧ req_signal req = None
    ∧ req_cancelToken req = None.
Proof.
  destruct op; simpl run_operation.
  - unfold uploadFile, api_post. eexists. split; [apply api_then_data_run|done].
  - unfold analyzeImage, api_post. eexists. split; [apply api_then_data_run|done].
  - unfold getRecommendations, api_post. eexists. split; [apply api_then_data_run|done].
  - eexists. split; [apply analyzeAndRecommend_run|done].
  - unfold cleanupFile, api_delete. eexists. split; [apply api_then_data_run|done].
  - unfold healthCheck, api_get. eexists. split; [apply api_then_data_run|done].
Qed.

End Client.

End ApiFacts.

(** ** The upload component *)

Section FileUploadFacts.
Import Js FileUpload.

Variable uploadFile : file → task Api.world object.

(** [validateFile], outcome by outcome. *)
Lemma validateFile_cases f :
  validateFile f
  = if String.prefix "image/" (file_type f)
    then if decide (file_size f ≤ 10 * 1024 * 1024)
         then Resolved true
         else Rejected (new_Error "File size must be less than 10MB")
    else Rejected (new_Error "Please select an image file").
Proof.
  unfold validateFile, maxSize.
  destruct (String.prefix _ _); simpl; [|done].
  case_decide; destruct (Z.gtb_spec (file_size f) (10 * 1024 * 1024)); done || lia.
Qed.

(** A file that fails validation: the message is shown, [uploading] is
    reset, and neither [uploadFile] nor [onFileUpload] is called. *)
Lemma handleFileUpload_invalid f err e :
  validateFile f = Rejected err →
  handleFileUpload uploadFile f e
  = (Resolved tt,
     {| isDragging := isDragging e; uploading := false;
        error := Some (message err); net := net e;
        uploadFile_calls := uploadFile_calls e;
        onFileUpload_calls := onFileUpload_calls e |}).
Proof.
  intros Hv. unfold handleFileUpload, try_finally, try_catch, of_settled,
    mbind, task_bind, bind. by rewrite Hv.
Qed.

(** A file that passes: [uploadFile] is called, and [onFileUpload] is
    called with the response's [file_id] exactly when it resolves. *)
Lemma handleFileUpload_valid f e :
  validateFile f = Resolved true →
  handleFileUpload uploadFile f e
  = match uploadFile f (net e) with
    | (Resolved response, w) =>
        (Resolved tt,
         {| isDragging := isDragging e; uploading := false; error := None; net := w;
            uploadFile_calls := uploadFile_calls e ++ [f];
            onFileUpload_calls := onFileUpload_calls e ++ [(f, get response "file_id")] |})
    | (Rejected err, w) =>
        (Resolved tt,
         {| isDragging := isDragging e; uploading := false;
            error := Some (message err); net := w;
            uploadFile_calls := uploadFile_calls e ++ [f];
            onFileUpload_calls := onFileUpload_calls e |})
    end.
Proof.
  intros Hv. unfold handleFileUpload, call_api, try_finally, try_catch, of_settled,
    zoom, mbind, task_bind, bind, setUploading, setError, onFileUpload, modify.
  rewrite Hv. simpl.
  by destruct (uploadFile f (net e)) as [[response|err] w].
Qed.

(** C3. For every file offered to the upload component: [validateFile]
    rejects it (throws) if and only if its MIME type does not start with
    [image/] or its size exceeds 10*1024*1024 bytes. For a rejected file
    [handleFileUpload] shows the error and calls neither [uploadFile] nor
    [onFileUpload]; for any other file it calls [uploadFile] (once), and
    [onFileUpload] when that resolves: so the upload is refused with an
    error, nothing sent, if and only if the file is invalid. A file of
    exactly 10*1024*1024 bytes with an image type passes. *)
Theorem upload_rejected_iff_invalid f e :
  let invalid :=
    String.prefix "image/" (file_type f) = false ∨ file_size f > 10 * 1024 * 1024 in
  let e' := (handleFileUpload uploadFile f e).2 in
  ((∃ err, validateFile f = Rejected err) ↔ invalid)
  ∧ (uploadFile_calls e' = uploadFile_calls e ↔ invalid)
  ∧ (invalid →
       (∃ err, validateFile f = Rejected err ∧ error e' = Some (message err))
       ∧ net e' = net e
       ∧ onFileUpload_calls e' = onFileUpload_calls e)
  ∧ (¬ invalid →
       uploadFile_calls e' = uploadFile_calls e ++ [f]
       ∧ net e' = (uploadFile f (net e)).2
       ∧ (∀ response, (uploadFile f (net e)).1 = Resolved response →
            error e' = None
            ∧ onFileUpload_calls e'
              = onFileUpload_calls e ++ [(f, get response "file_id")])
       ∧ (∀ err, (uploadFile f (net e)).1 = Rejected err →
            error e' = Some (message err)
            ∧ onFileUpload_calls e' = onFileUpload_calls e))
  ∧ (String.prefix "image/" (file_type f) = true →
     file_size f = 10 * 1024 * 1024 →
     validateFile f = Resolved true).
Proof.
  intros invalid e'.
  assert ((∃ err, validateFile f = Rejected err) ↔ invalid) as Hiff.
  { subst invalid. rewrite validateFile_cases. split.
    - intros [err Hv]. destruct (String.prefix _ _); [|by left].
      case_decide; [done|right; lia].
    - intros [Hp|Hs].
      + rewrite Hp. eauto.
      + destruct (String.prefix _ _); [|eauto]. case_decide; [lia|eauto]. }
  assert (¬ invalid → validateFile f = Resolved true) as Hvalid.
  { intros Hn. destruct (validateFile f) as [[]|err] eqn:Hv; [done| |].
    - revert Hv. rewrite validateFile_cases.
      destruct (String.prefix _ _); [|done]. by case_decide.
    - exfalso. apply Hn, Hiff. eauto. }
  split_and!.
  - exact Hiff.
  - subst e'. split.
    + intros Hcalls. subst invalid.
      destruct (decide (String.prefix "image/" (file_type f) = false
                        ∨ file_size f > 10 * 1024 * 1024)) as [|Hn]; [done|].
      rewrite (handleFileUpload_valid f e (Hvalid Hn)) in Hcalls.
      destruct (uploadFile f (net e)) as [[response|err] w]; simpl in Hcalls;
        apply (f_equal length) in Hcalls; rewrite length_app in Hcalls;
        simpl in Hcalls; lia.
    + intros [err Hv]%Hiff. by rewrite (handleFileUpload_invalid f err e Hv).
  - intros [err Hv]%Hiff. subst e'.
    rewrite (handleFileUpload_invalid f err e Hv). simpl. eauto.
  - intros Hn. subst e'. rewrite (handleFileUpload_valid f e (Hvalid Hn)).
    destruct (uploadFile f (net e)) as [[response|err] w]; simpl.
    + split_and!; [done..| |]; [by intros ? [= <-]|by intros ? [=]].
    + split_and!; [done..| |]; [by intros ? [=]|by intros ? [= <-]].
  - intros Hp Hs. rewrite validateFile_cases, Hp. case_decide; [done|lia].
Qed.

Example validateFile_examples :
  validateFile (File "selfie.png" "image/png" 10485760) = Resolved true
  ∧ validateFile (File "selfie.png" "image/png" 10485761)
    = Rejected (new_Error "File size must be less than 10MB")
  ∧ validateFile (File "cv.pdf" "application/pdf" 1)
    = Rejected (new_Error "Please select an image file").
Proof. done. Qed.

End FileUploadFacts.

(** ** The app *)

Section AppFacts.
Import Js App.

Variable analyzeAndRecommend : string → task Api.world object.

(** [handleAnalyze] without a file id: nothing is called, nothing changes. *)
Lemma handleAnalyze_without_file s :
  not_fileId (fileId s) = true →
  handleAnalyze analyzeAndRecommend s = (Resolved tt, s).
Proof.
  intros Hn. unfold handleAnalyze, mbind, task_bind, bind, gets. by rewrite Hn.
Qed.

(** [handleAnalyze] with a file id, by how the request ends. *)
Lemma handleAnalyze_run s id :
  fileId s = Some id → id ≠ "" →
  handleAnalyze analyzeAndRecommend s
  = match analyzeAndRecommend id (net s) with
    | (Resolved result, w) =>
        (Resolved tt,
         {| uploadedFile := uploadedFile s; fileId := fileId s;
            analysisData := get result "analysis";
            recommendations := get result "recommendations";
            loading := false; error := None; currentStep := results; net := w |})
    | (Rejected err, w) =>
        (Resolved tt,
         {| uploadedFile := uploadedFile s; fileId := fileId s;
            analysisData := analysisData s;
            recommendations := recommendations s;
            loading := false;
            error := Some (if String.eqb (message err) ""
                           then "Analysis failed. Please try again."
                           else message err);
            currentStep := preview; net := w |})
    end.
Proof.
  intros Hid Hne.
  unfold handleAnalyze, mbind, task_bind, bind, gets.
  assert (not_fileId (fileId s) = false) as ->.
  { rewrite Hid. simpl. by apply String.eqb_neq. }
  unfold try_finally, try_catch, on_net, zoom, setLoading, setError,
    setCurrentStep, setAnalysisData, setRecommendations, modify.
  rewrite Hid. simpl.
  destruct (analyzeAndRecommend id (net s)) as [[result|err] w]; reflexivity.
Qed.

(** C9. For every invocation of [handleAnalyze] with a file id (not null,
    and not the empty string, which [!fileId] treats like null): if
    [analyzeAndRecommend] rejects, [analysisData] and [recommendations]
    are as they were, a non-empty error message is set and the step is
    back at [preview]; if it resolves, both are set from the result and
    the step is [results]; in every case [loading] is false when the
    handler is done, and the handler itself does not reject. *)
Theorem handleAnalyze_atomic s id :
  fileId s = Some id → id ≠ "" →
  let out := handleAnalyze analyzeAndRecommend s in
  out.1 = Resolved tt
  ∧ loading out.2 = false
  ∧ net out.2 = (analyzeAndRecommend id (net s)).2
  ∧ (∀ err, (analyzeAndRecommend id (net s)).1 = Rejected err →
       analysisData out.2 = analysisData s
       ∧ recommendations out.2 = recommendations s
       ∧ (∃ msg, error out.2 = Some msg ∧ msg ≠ "")
       ∧ currentStep out.2 = preview)
  ∧ (∀ result, (analyzeAndRecommend id (net s)).1 = Resolved result →
       analysisData out.2 = get result "analysis"
       ∧ recommendations out.2 = get result "recommendations"
       ∧ error out.2 = None
       ∧ currentStep out.2 = results).
Proof.
  intros Hid Hne out. subst out. rewrite (handleAnalyze_run s id Hid Hne).
  destruct (analyzeAndRecommend id (net s)) as [[result|err] w]; simpl.
  - split_and!; try done. intros ? [= <-]. done.
  - split_and!; try done. intros ? [= <-]. split_and!; try done.
    destruct (String.eqb (message err) "") eqn:Hm.
    + by eexists.
    + eexists. split; [done|]. by apply String.eqb_neq.
Qed.

(** When the backend answers a failed analysis with its error object (a
    200 response), the promise resolves, so [handleAnalyze] takes it for a
    result: no message is shown, both results are [undefined], and the step
    is [results]. *)
Theorem error_object_taken_for_result s id w msg :
  fileId s = Some id → id ≠ "" →
  analyzeAndRecommend id (net s)
  = (Resolved [("error", JStr msg); ("status", JStr "error")], w) →
  let out := handleAnalyze analyzeAndRecommend s in
  analysisData out.2 = undefined
  ∧ recommendations out.2 = undefined
  ∧ error out.2 = None
  ∧ currentStep out.2 = results.
Proof.
  intros Hid Hne Hapi out. subst out.
  by rewrite (handleAnalyze_run s id Hid Hne), Hapi.
Qed.

End AppFacts.

(** ** The combined endpoint, end to end *)

Section CombinedResponse.
Import Py Backend.

Variable analyze_face : string → disk → outcome json.
Variable get_recommendations : json → outcome json.

(** C4. On every successful invocation (both services return) the
    combined handler returns the object with the fields [analysis],
    [recommendations] and [status] = "success"; and [handleAnalyze], given
    that object, takes [analysis] and [recommendations] from it and
    nothing else: any response with the same two fields leaves the app in
    the same state. *)
Theorem combined_response_fields file_id (d : disk) a r :
  analyze_face ("uploads/" +:+ file_id) d = Returns a →
  get_recommendations a = Returns r →
  let response :=
    [("analysis", a); ("recommendations", r); ("status", JStr "success")] in
  result_of (analyze_and_recommend analyze_face get_recommendations file_id d)
  = Returns (JObj response)
  ∧ Js.get response "analysis" = Js.value a
  ∧ Js.get response "recommendations" = Js.value r
  ∧ Js.get response "status" = Js.value (JStr "success")
  ∧ (∀ api s id w,
       App.fileId s = Some id → id ≠ "" →
       api id (App.net s) = (Js.Resolved response, w) →
       App.analysisData (App.handleAnalyze api s).2 = Js.value a
       ∧ App.recommendations (App.handleAnalyze api s).2 = Js.value r
       ∧ App.currentStep (App.handleAnalyze api s).2 = App.results)
  ∧ (∀ api api' s id w other,
       App.fileId s = Some id → id ≠ "" →
       api id (App.net s) = (Js.Resolved response, w) →
       api' id (App.net s) = (Js.Resolved other, w) →
       Js.get other "analysis" = Js.value a →
       Js.get other "recommendations" = Js.value r →
       App.handleAnalyze api' s = App.handleAnalyze api s).
Proof.
  intros Ha Hg response. split_and!; try done.
  - by apply success_response.
  - intros api s id w Hid Hne Hapi.
    rewrite (handleAnalyze_run api s id Hid Hne), Hapi. done.
  - intros api api' s id w other Hid Hne Hapi Hapi' Hoa Hor.
    rewrite (handleAnalyze_run api s id Hid Hne), Hapi.
    rewrite (handleAnalyze_run api' s id Hid Hne), Hapi'.
    by rewrite Hoa, Hor.
Qed.

End CombinedResponse.

(** ** The file size label *)

Section ImagePreviewFacts.
Import ImagePreview.

(** With fuel beyond the bit length, [floor_log_from] is the floor of the
    logarithm: the [i] with [k^i <= x < k^(i+1)]. *)
Lemma floor_log_from_spec fuel : ∀ k x,
  2 ≤ k → 1 ≤ x → Z.log2 x < Z.of_nat fuel →
  0 ≤ floor_log_from fuel k x
  ∧ k ^ floor_log_from fuel k x ≤ x < k ^ (floor_log_from fuel k x + 1).
Proof.
  induction fuel as [|fuel IH]; intros k x Hk Hx Hfuel.
  - pose proof (Z.log2_nonneg x). lia.
  - simpl. destruct (Z.ltb_spec x k) as [Hlt|Hge].
    + rewrite Z.pow_0_r, Z.pow_1_r. lia.
    + assert (1 ≤ x / k) as Hq by (apply Z.div_le_lower_bound; lia).
      assert (Z.log2 (x / k) < Z.of_nat fuel) as Hfuel'.
      { assert (x / k < 2 ^ Z.log2 x) as Hlt.
        { destruct (Z.log2_spec x ltac:(lia)) as [_ Hup].
          rewrite Z.pow_succ_r in Hup by apply Z.log2_nonneg.
          apply Z.div_lt_upper_bound; [lia|].
          pose proof (Z.pow_pos_nonneg 2 (Z.log2 x) ltac:(lia) (Z.log2_nonneg x)).
          nia. }
        apply Z.log2_lt_pow2 in Hlt; lia. }
      destruct (IH k (x / k) Hk Hq Hfuel') as (Hi & Hlo & Hhi).
      set (i := floor_log_from fuel k (x / k)) in *.
      split; [lia|].
      replace (1 + i + 1) with (Z.succ (Z.succ i)) by lia.
      replace (1 + i) with (Z.succ i) by lia.
      rewrite !Z.pow_succ_r by lia.
      rewrite Z.pow_add_r, Z.pow_1_r in Hhi by lia.
      pose proof (Z.div_mod x k ltac:(lia)) as Hdm.
      pose proof (Z.mod_pos_bound x k ltac:(lia)) as Hmod.
      pose proof (Z.pow_pos_nonneg k i ltac:(lia) Hi) as Hpos.
      split; nia.
Qed.

Lemma floor_log_spec k x :
  2 ≤ k → 1 ≤ x →
  0 ≤ floor_log k x ∧ k ^ floor_log k x ≤ x < k ^ (floor_log k x + 1).
Proof.
  intros Hk Hx. apply floor_log_from_spec; [done..|].
  pose proof (Z.log2_nonneg x). lia.
Qed.

(** The floor of the logarithm is the only such exponent. *)
Lemma floor_log_unique k x i :
  2 ≤ k → 1 ≤ x → 0 ≤ i → k ^ i ≤ x < k ^ (i + 1) → floor_log k x = i.
Proof.
  intros Hk Hx Hi [Hlo Hhi].
  destruct (floor_log_spec k x Hk Hx) as (Hj & Hjlo & Hjhi).
  set (j := floor_log k x) in *.
  destruct (Z.lt_trichotomy j i) as [Hlt|[Heq|Hgt]]; [|done|].
  - assert (k ^ (j + 1) ≤ k ^ i) by (apply Z.pow_le_mono_r; lia). lia.
  - assert (k ^ (i + 1) ≤ k ^ j) by (apply Z.pow_le_mono_r; lia). lia.
Qed.

(** On the reals: an exponent that brackets [x] between two powers of [k]
    is the floor of [ln x / ln k]. *)
Lemma ln_IZR_pow k i :
  0 < k → 0 ≤ i → ln (IZR (k ^ i)) = (IZR i * ln (IZR k))%R.
Proof.
  intros Hk Hi. rewrite <- (Z2Nat.id i) at 1 by done.
  rewrite <- pow_IZR, ln_pow by (apply IZR_lt; lia).
  by rewrite INR_IZR_INZ, Z2Nat.id.
Qed.

Lemma log_ratio_bracket k x i :
  2 ≤ k → 0 ≤ i → k ^ i ≤ x < k ^ (i + 1) →
  (IZR i <= ln (IZR x) / ln (IZR k) < IZR i + 1)%R.
Proof.
  intros Hk Hi [Hlo Hhi].
  assert (0 < ln (IZR k))%R as Hlnk.
  { rewrite <- ln_1. apply ln_increasing; [lra|]. apply IZR_lt. lia. }
  assert (0 < k ^ i) as Hpos by (apply Z.pow_pos_nonneg; lia).
  assert (IZR i * ln (IZR k) <= ln (IZR x))%R as H1.
  { rewrite <- ln_IZR_pow by lia.
    destruct (Z.eq_dec (k ^ i) x) as [->|Hne]; [lra|].
    apply Rlt_le, ln_increasing; apply IZR_lt; lia. }
  assert (ln (IZR x) < (IZR i + 1) * ln (IZR k))%R as H2.
  { rewrite <- plus_IZR, <- ln_IZR_pow by lia.
    apply ln_increasing; apply IZR_lt; lia. }
  split.
  - apply (Rmult_le_reg_r (ln (IZR k))); [done|].
    unfold Rdiv. rewrite Rmult_assoc, Rinv_l by lra. lra.
  - apply (Rmult_lt_reg_r (ln (IZR k))); [done|].
    unfold Rdiv. rewrite Rmult_assoc, Rinv_l by lra. lra.
Qed.

(** [toFixed2] is the nearest count of hundredths, halves going up. *)
Lemma toFixed2_nearest num den :
  0 < den →
  2 * den * toFixed2 num den - den ≤ 200 * num < 2 * den * toFixed2 num den + den.
Proof.
  intros Hden. unfold toFixed2.
  pose proof (Z.div_mod (200 * num + den) (2 * den) ltac:(lia)) as Hdm.
  pose proof (Z.mod_pos_bound (200 * num + den) (2 * den) ltac:(lia)) as Hmod.
  lia.
Qed.

Lemma formatFileSize_positive b :
  1 ≤ b →
  formatFileSize b
  = show_hundredths (toFixed2 b (1024 ^ floor_log 1024 b)) +:+ " "
    +:+ unit_text (floor_log 1024 b).
Proof.
  intros Hb. unfold formatFileSize, k.
  destruct (Z.eqb_spec b 0); [lia|]. destruct (Z.ltb_spec b 0); [lia|]. done.
Qed.

(** C10. [formatFileSize 0] is "0 Bytes". For a byte count [b] with
    [1 <= b < 1024^4] the unit index is [i = floor (log b / log 1024)]
    (on the reals, [i <= ln b / ln 1024 < i + 1]; on the integers,
    [1024^i <= b < 1024^(i+1)]); it lies within the array [sizes], and the
    text is [b / 1024^i] rounded to two decimals (a count [n] of hundredths
    within half a hundredth of it), a space and [sizes[i]]. For
    [b >= 1024^4] the index is 4 or more, outside the array, and the text
    ends in "undefined". *)
Theorem formatFileSize_unit_index :
  formatFileSize 0 = "0 Bytes"
  ∧ (∀ b, 1 ≤ b < 1024 ^ 4 →
       ∃ i u, floor_log 1024 b = i
         ∧ (IZR i <= ln (IZR b) / ln 1024 < IZR i + 1)%R
         ∧ 0 ≤ i < 4
         ∧ 1024 ^ i ≤ b < 1024 ^ (i + 1)
         ∧ sizes !! Z.to_nat i = Some u
         ∧ ∃ n, formatFileSize b = show_hundredths n +:+ " " +:+ u
              ∧ 2 * 1024 ^ i * n - 1024 ^ i ≤ 200 * b < 2 * 1024 ^ i * n + 1024 ^ i)
  ∧ (∀ b, 1024 ^ 4 ≤ b →
       4 ≤ floor_log 1024 b
       ∧ sizes !! Z.to_nat (floor_log 1024 b) = None
       ∧ ∃ n, formatFileSize b = show_hundredths n +:+ " undefined").
Proof.
  split_and!.
  - reflexivity.
  - intros b [Hlo Hhi].
    destruct (floor_log_spec 1024 b ltac:(lia) Hlo) as (Hi & Hilo & Hihi).
    set (i := floor_log 1024 b) in *.
    assert (i < 4) as Hi4.
    { destruct (Z.lt_ge_cases i 4) as [|Hge]; [done|].
      assert (1024 ^ 4 ≤ 1024 ^ i) by (apply Z.pow_le_mono_r; lia). lia. }
    assert (∃ u, sizes !! Z.to_nat i = Some u) as [u Hu].
    { apply lookup_lt_is_Some. simpl. lia. }
    exists i, u.
    split; [done|]. split; [by apply log_ratio_bracket|].
    split; [lia|]. split; [done|]. split; [done|].
    exists (toFixed2 b (1024 ^ i)). split.
    + rewrite formatFileSize_positive by done. fold i.
      unfold unit_text. by rewrite Hu.
    + apply toFixed2_nearest. apply Z.pow_pos_nonneg; lia.
  - intros b Hb.
    assert (1 ≤ b) as Hlo by (change (1024 ^ 4) with 1099511627776 in Hb; lia).
    destruct (floor_log_spec 1024 b ltac:(lia) Hlo) as (Hi & Hilo & Hihi).
    set (i := floor_log 1024 b) in *.
    assert (4 ≤ i) as Hi4.
    { destruct (Z.lt_ge_cases i 4) as [Hlt|]; [|done].
      assert (1024 ^ (i + 1) ≤ 1024 ^ 4) by (apply Z.pow_le_mono_r; lia). lia. }
    assert (sizes !! Z.to_nat i = None) as Hnone.
    { apply lookup_ge_None. simpl. lia. }
    split_and!; try done.
    exists (toFixed2 b (1024 ^ i)).
    rewrite formatFileSize_positive by done. fold i.
    unfold unit_text. by rewrite Hnone.
Qed.

(** The statement at work on a 5 MB selfie and at the first size with no unit. *)
Lemma formatFileSize_unit_index_witness :
  formatFileSize 5000000 = "4.77 MB"
  ∧ floor_log 1024 5000000 = 2
  ∧ sizes !! Z.to_nat (floor_log 1024 (1024 ^ 4)) = None
  ∧ formatFileSize (1024 ^ 4) = "1 undefined".
Proof.
  destruct formatFileSize_unit_index as (_ & Hin & Hout).
  destruct (Hin 5000000 ltac:(done)) as (i & u & Hi & _).
  destruct (Hout (1024 ^ 4) ltac:(done)) as (_ & Hnone & _).
  split_and!; [reflexivity | reflexivity | exact Hnone | reflexivity].
Defined.

Example formatFileSize_examples :
  map formatFileSize [1; 1023; 1024; 1536; 1048575; 10485760; 1073741824]
  = ["1 Bytes"; "1023 Bytes"; "1 KB"; "1.5 KB"; "1024 KB"; "10 MB"; "1 GB"].
Proof. reflexivity. Qed.

End ImagePreviewFacts.

(** ** More on the retry helper *)

Section RetryFacts.
Import Js Api.

(** An [fn] whose outcome is fixed by the number of timers set so far:
    attempt [i] of [retryRequest] (counting from 0) gets [script i]. *)
Lemma retryRequest_scripted {A} (script : nat → settled A) sent0 retries :
  ∀ delay ts k,
    (k ≤ retries)%nat →
    (∀ i, (i < k)%nat →
       ∃ e, script (length ts + i)%nat = Rejected e
            ∧ is_cold_start_code (code e) = true) →
    (k = retries
     ∨ (∃ a, script (length ts + k)%nat = Resolved a)
     ∨ (∃ e, script (length ts + k)%nat = Rejected e
             ∧ is_cold_start_code (code e) = false)) →
    retryRequest (λ w, (script (length (timers w)), w)) retries delay
      {| sent := sent0; timers := ts |}
    = (script (length ts + k)%nat,
       {| sent := sent0; timers := ts ++ backoff k delay |}).
Proof.
  induction retries as [|retries IH]; intros delay ts k Hk Hcold Hfinal.
  - assert (k = 0%nat) as -> by lia.
    rewrite retryRequest_unfold. simpl. rewrite Nat.add_0_r, app_nil_r.
    by destruct (script (length ts)).
  - destruct k as [|k].
    + rewrite retryRequest_unfold. simpl. rewrite Nat.add_0_r, app_nil_r.
      rewrite Nat.add_0_r in Hfinal.
      destruct Hfinal as [?|[[a Ha]|(e & He & Hc)]]; [done|by rewrite Ha|].
      by rewrite He, Hc.
    + destruct (Hcold 0%nat ltac:(lia)) as (e & He & Hc).
      rewrite Nat.add_0_r in He.
      rewrite retryRequest_unfold. simpl. rewrite He, Hc.
      rewrite (IH _ (ts ++ [delay]) k).
      * rewrite length_app. simpl.
        replace (length ts + 1 + k)%nat with (length ts + S k)%nat by lia.
        by rewrite <- app_assoc.
      * lia.
      * intros i Hi. rewrite length_app. simpl.
        replace (length ts + 1 + i)%nat with (length ts + S i)%nat by lia.
        apply Hcold. lia.
      * rewrite length_app. simpl.
        replace (length ts + 1 + k)%nat with (length ts + S k)%nat by lia.
        destruct Hfinal as [?|?]; [left; lia|by right].
Qed.

(** [retryRequest] gives the outcome of the first attempt that is not a
    cold-start failure, or of attempt number [retries] when all before it
    were: if attempts [0 .. k-1] fail with [ERR_NETWORK] or [ECONNABORTED]
    and attempt [k <= retries] succeeds, fails otherwise, or is the last
    one allowed, then [fn] is called [k + 1] times, the result is that of
    attempt [k], and the waits are the first [k] delays of the schedule. *)
Theorem retryRequest_first_final {A} (script : nat → settled A) sent0 retries delay k :
  (k ≤ retries)%nat →
  (∀ i, (i < k)%nat →
     ∃ e, script i = Rejected e
          ∧ (code e = Some "ERR_NETWORK" ∨ code e = Some "ECONNABORTED")) →
  (k = retries
   ∨ (∃ a, script k = Resolved a)
   ∨ (∃ e, script k = Rejected e
           ∧ code e ≠ Some "ERR_NETWORK" ∧ code e ≠ Some "ECONNABORTED")) →
  retryRequest (λ w, (script (length (timers w)), w)) retries delay
    {| sent := sent0; timers := [] |}
  = (script k, {| sent := sent0; timers := backoff k delay |}).
Proof.
  intros Hk Hcold Hfinal.
  apply (retryRequest_scripted script sent0 retries delay [] k Hk).
  - intros i Hi. destruct (Hcold i Hi) as (e & He & Hc).
    exists e. split; [done|]. by apply is_cold_start_code_spec.
  - destruct Hfinal as [?|[?|(e & He & Hn & Ha)]]; [by left|by right; left|].
    right; right. exists e. split; [done|].
    destruct (is_cold_start_code (code e)) eqn:Hc; [|done].
    apply is_cold_start_code_spec in Hc as [?|?]; done.
Qed.

End RetryFacts.

(** ** The app under any order of its callbacks *)

Section AppFlowFacts.
Import Js App AppFlow.

(** The two turns are [handleAnalyze]: its first turn, the request on the
    network the first turn left, and its second turn on the outcome. *)
Lemma handleAnalyze_two_turns (api : string → task Api.world object) s :
  handleAnalyze api s
  = match handleAnalyze_begin s with
    | (Resolved (Some id), s1) =>
        let '(outcome, w) := api id (net s1) in
        handleAnalyze_settle outcome (on_net (λ _, (Resolved tt, w)) s1).2
    | (_, s1) => (Resolved tt, s1)
    end.
Proof.
  unfold handleAnalyze, handleAnalyze_begin, handleAnalyze_settle,
    mbind, task_bind, bind, gets.
  destruct (not_fileId (fileId s)); [done|].
  unfold try_finally, try_catch, of_settled, on_net, zoom, setLoading, setError,
    setCurrentStep, setAnalysisData, setRecommendations, modify, mret, task_ret, ret.
  simpl. by destruct (api (default "" (fileId s)) (net s)) as [[result|err] w].
Qed.

Lemma handleAnalyze_begin_run s :
  (handleAnalyze_begin s).2
  = if not_fileId (fileId s) then s
    else {| uploadedFile := uploadedFile s; fileId := fileId s;
            analysisData := analysisData s; recommendations := recommendations s;
            loading := true; error := None; currentStep := analysis; net := net s |}.
Proof.
  unfold handleAnalyze_begin, mbind, task_bind, bind, gets.
  by destruct (not_fileId (fileId s)).
Qed.

Lemma handleAnalyze_settle_run outcome s :
  (handleAnalyze_settle outcome s).2
  = match outcome with
    | Resolved result =>
        {| uploadedFile := uploadedFile s; fileId := fileId s;
           analysisData := get result "analysis";
           recommendations := get result "recommendations";
           loading := false; error := error s; currentStep := results; net := net s |}
    | Rejected err =>
        {| uploadedFile := uploadedFile s; fileId := fileId s;
           analysisData := analysisData s; recommendations := recommendations s;
           loading := false;
           error := Some (if String.eqb (message err) ""
                          then "Analysis failed. Please try again."
                          else message err);
           currentStep := preview; net := net s |}
    end.
Proof. by destruct outcome. Qed.

(** Whatever the order in which the callbacks of the app run (an upload
    reporting late, on any step; an analysis asked for while another is
    awaited; a promise settling after Start Over): on the upload step the
    app holds no file, no file id, no results and no error; on the analysis
    step it is loading and holds no error; and an error that is set is
    never the empty string, so the banner shows it. *)
Theorem app_state_invariants s :
  reachable s →
  (currentStep s = upload →
     uploadedFile s = None ∧ fileId s = None
     ∧ analysisData s = value JNull ∧ recommendations s = value JNull
     ∧ error s = None)
  ∧ (currentStep s = analysis → loading s = true ∧ error s = None)
  ∧ error_banner s = error s.
Proof.
  induction 1 as [w|s w Hs IH|s f id Hs IH|s Hs IH|s outcome Hs IH|s Hs IH].
  - done.
  - exact IH.
  - done.
  - rewrite handleAnalyze_begin_run. by destruct (not_fileId (fileId s)).
  - rewrite handleAnalyze_settle_run. destruct IH as (_ & _ & Hbanner).
    destruct outcome as [result|err]; [done|].
    split_and!; try done. unfold error_banner; simpl.
    destruct (String.eqb (message err) "") eqn:Hm; [done|]. by rewrite Hm.
  - done.
Qed.

End AppFlowFacts.

(** ** The components on the real client *)

Section WiringFacts.
Import Js Api.

Variable VITE_API_URL : option string.
Variable network : list request → request → settled http_response.

Lemma as_object_run {S} prop (m : task S json) w :
  Wiring.as_object prop m w
  = match m w with
    | (Resolved JNull, w') =>
        (Rejected (new_Error ("Cannot read properties of null (reading '"
                              +:+ prop +:+ "')")), w')
    | (Resolved (JObj fields), w') => (Resolved fields, w')
    | (Resolved _, w') => (Resolved [], w')
    | (Rejected e, w') => (Rejected e, w')
    end.
Proof.
  unfold Wiring.as_object, mbind, task_bind, bind.
  destruct (m w) as [[j|e] w']; [|done]. by destruct j.
Qed.

Lemma uploadFile_run f w :
  let req := mergeConfig VITE_API_URL POST "/upload" (form_data [("file", f)])
               {| cfg_params := [];
                  cfg_headers := [("Content-Type", "multipart/form-data")];
                  cfg_timeout := None; cfg_signal := None;
                  cfg_cancelToken := None |} in
  uploadFile VITE_API_URL network f w
  = (match network (sent w) req with
     | Resolved r => Resolved (data r)
     | Rejected e => Rejected (response_rejected e)
     end,
     {| sent := sent w ++ [req]; timers := timers w |}).
Proof. intros req. unfold uploadFile, api_post. apply api_then_data_run. Qed.

Lemma response_rejected_message e :
  message (response_rejected e) = ""
  → ∃ d, response_detail e = value d ∧ truthy_json d = true ∧ to_String d = "".
Proof.
  unfold response_rejected.
  repeat (case_bool_decide; [done|]).
  destruct (response_detail e) as [|d].
  - destruct (String.eqb (message e) "") eqn:Hm; [done|].
    simpl. intros Hm'. by rewrite Hm', String.eqb_refl in Hm.
  - destruct (truthy_json d) eqn:Ht.
    + simpl. eauto.
    + destruct (String.eqb (message e) "") eqn:Hm; [done|].
      simpl. intros Hm'. by rewrite Hm', String.eqb_refl in Hm.
Qed.

(** The analysis button on the real client, for a state that holds a file
    id: exactly one request goes out, none is repeated and no timer is set;
    the app ends not loading, with its file kept. If the request fails, the
    app is back on the preview step, its earlier results untouched, and
    shows the text the response interceptor chose (the component's own
    default text only if that one is empty). If it succeeds with a JSON
    object, the app is on the results step with the object's [analysis]
    and [recommendations], missing fields being [undefined]; a [null] body
    ends on the preview step with the type error's message; any other body
    ends on the results step with both fields [undefined]. *)
Theorem analysis_on_real_client s id :
  App.fileId s = Some id → id ≠ "" →
  let req := mergeConfig VITE_API_URL POST "/analyze-and-recommend" null_body
               {| cfg_params := [("file_id", id)]; cfg_headers := [];
                  cfg_timeout := None; cfg_signal := None;
                  cfg_cancelToken := None |} in
  let out := (Wiring.handleAnalyze VITE_API_URL network s).2 in
  sent (App.net out) = sent (App.net s) ++ [req]
  ∧ timers (App.net out) = timers (App.net s)
  ∧ App.loading out = false
  ∧ App.uploadedFile out = App.uploadedFile s
  ∧ App.fileId out = App.fileId s
  ∧ match network (sent (App.net s)) req with
    | Rejected e =>
        App.currentStep out = App.preview
        ∧ App.analysisData out = App.analysisData s
        ∧ App.recommendations out = App.recommendations s
        ∧ App.error out
          = Some (if String.eqb (message (response_rejected e)) ""
                  then "Analysis failed. Please try again."
                  else message (response_rejected e))
    | Resolved r =>
        match data r with
        | JNull =>
            App.currentStep out = App.preview
            ∧ App.analysisData out = App.analysisData s
            ∧ App.recommendations out = App.recommendations s
            ∧ App.error out
              = Some "Cannot read properties of null (reading 'analysis')"
        | JObj fields =>
            App.currentStep out = App.results
            ∧ App.analysisData out = get fields "analysis"
            ∧ App.recommendations out = get fields "recommendations"
            ∧ App.error out = None
        | _ =>
            App.currentStep out = App.results
            ∧ App.analysisData out = undefined
            ∧ App.recommendations out = undefined
            ∧ App.error out = None
        end
    end.
Proof.
  intros Hid Hne req out. subst out. unfold Wiring.handleAnalyze.
  rewrite (handleAnalyze_run _ s id Hid Hne), as_object_run.
  rewrite (analyzeAndRecommend_run VITE_API_URL network id (App.net s)). fold req.
  destruct (network (sent (App.net s)) req) as [r|e]; simpl.
  - destruct (data r); simpl; done.
  - done.
Qed.

(** A failed analysis on the real client always shows a message: the
    banner is never blank. *)
Theorem failed_analysis_shows_message s id e :
  App.fileId s = Some id → id ≠ "" →
  network (sent (App.net s))
    (mergeConfig VITE_API_URL POST "/analyze-and-recommend" null_body
       {| cfg_params := [("file_id", id)]; cfg_headers := [];
          cfg_timeout := None; cfg_signal := None; cfg_cancelToken := None |})
  = Rejected e →
  ∃ m, AppFlow.error_banner (Wiring.handleAnalyze VITE_API_URL network s).2 = Some m
       ∧ (code e = Some "ERR_NETWORK" → response e = None →
          m = "Network error. Please check your connection and ensure the backend is running.")
       ∧ (code e = Some "ECONNABORTED" → response e = None →
          m = "Request timeout. The server may be starting up (cold start). Please wait 30 seconds and try again.").
Proof.
  intros Hid Hne Hnet. unfold Wiring.handleAnalyze.
  rewrite (handleAnalyze_run _ s id Hid Hne), as_object_run.
  rewrite (analyzeAndRecommend_run VITE_API_URL network id (App.net s)).
  cbv zeta. rewrite Hnet. unfold AppFlow.error_banner. simpl.
  destruct (String.eqb (message (response_rejected e)) "") eqn:Hm.
  - eexists. split; [reflexivity|]. apply String.eqb_eq in Hm.
    split; intros Hc Hr; exfalso; revert Hm; unfold response_rejected;
      rewrite Hr, Hc; simpl; done.
  - rewrite Hm. eexists. split; [reflexivity|].
    split; intros Hc Hr; unfold response_rejected; rewrite Hr, Hc; simpl; done.
Qed.

(** The upload component on the real client. An invalid file sends
    nothing. A valid one sends exactly one multipart POST to [/upload];
    the parent is told of the file only if that request succeeds with a
    body other than [null], and is handed the body's [file_id], which is
    [undefined] when the body has none or is no object; otherwise the
    interceptor's text (or the type error's) is shown and the parent is
    not told. In every case the component ends not uploading. *)
Theorem upload_on_real_client f e :
  let req := mergeConfig VITE_API_URL POST "/upload" (form_data [("file", f)])
               {| cfg_params := [];
                  cfg_headers := [("Content-Type", "multipart/form-data")];
                  cfg_timeout := None; cfg_signal := None;
                  cfg_cancelToken := None |} in
  let out := (Wiring.handleFileUpload VITE_API_URL network f e).2 in
  FileUpload.uploading out = false
  ∧ timers (FileUpload.net out) = timers (FileUpload.net e)
  ∧ match FileUpload.validateFile f with
    | Rejected err =>
        sent (FileUpload.net out) = sent (FileUpload.net e)
        ∧ FileUpload.error out = Some (message err)
        ∧ FileUpload.onFileUpload_calls out = FileUpload.onFileUpload_calls e
    | Resolved _ =>
        sent (FileUpload.net out) = sent (FileUpload.net e) ++ [req]
        ∧ match network (sent (FileUpload.net e)) req with
          | Rejected x =>
              FileUpload.error out = Some (message (response_rejected x))
              ∧ FileUpload.onFileUpload_calls out = FileUpload.onFileUpload_calls e
          | Resolved r =>
              match data r with
              | JNull =>
                  FileUpload.error out
                  = Some "Cannot read properties of null (reading 'file_id')"
                  ∧ FileUpload.onFileUpload_calls out
                    = FileUpload.onFileUpload_calls e
              | JObj fields =>
                  FileUpload.error out = None
                  ∧ FileUpload.onFileUpload_calls out
                    = FileUpload.onFileUpload_calls e ++ [(f, get fields "file_id")]
              | _ =>
                  FileUpload.error out = None
                  ∧ FileUpload.onFileUpload_calls out
                    = FileUpload.onFileUpload_calls e ++ [(f, undefined)]
              end
          end
    end.
Proof.
  intros req out. subst out. unfold Wiring.handleFileUpload.
  destruct (FileUpload.validateFile f) as [b|err] eqn:Hv.
  - assert (b = true) as ->.
    { revert Hv. rewrite validateFile_cases.
      destruct (String.prefix _ _); [|done]. case_decide; congruence. }
    rewrite (handleFileUpload_valid _ f e Hv), as_object_run.
    rewrite (uploadFile_run f (FileUpload.net e)). fold req.
    destruct (network (sent (FileUpload.net e)) req) as [r|x]; simpl.
    + destruct (data r); simpl; done.
    + done.
  - by rewrite (handleFileUpload_invalid _ f err e Hv).
Qed.

End WiringFacts.

(** ** The sweep on any disk *)

Section SweepFacts.
Import Py Backend.

Lemma sweep_cons_present now name rest (d : disk) n :
  has_slash name = false →
  d !! ("uploads/" +:+ name) = Some n →
  sweep now (name :: rest) d
  = if mtime n <? now - 300
    then match kind n with
         | RegularFile =>
             let '(r, d2, l2) := sweep now rest (delete ("uploads/" +:+ name) d) in
             (r, d2, PeriodicCleanup ("uploads/" +:+ name) :: l2)
         | Directory => (Raises (IsADirectoryError ("uploads/" +:+ name)), d, [])
         end
    else sweep now rest d.
Proof.
  intros Hs Hp. simpl. rewrite (has_slash_no_root name Hs).
  unfold mbind, py_bind, bind, os_path_getmtime. rewrite Hp.
  destruct (mtime n <? now - 300).
  - unfold os_remove, print. rewrite Hp. destruct (kind n); [|done].
    by destruct (sweep now rest _) as [[r d2] l2].
  - simpl. by destruct (sweep now rest d) as [[r d2] l2].
Qed.

(** The loop over names that are all on the disk, whatever they name. *)
Lemma sweep_present now names : ∀ d : disk,
  NoDup names →
  (∀ name, name ∈ names →
     has_slash name = false ∧ is_Some (d !! ("uploads/" +:+ name))) →
  (∀ p, disk_of (sweep now names d) !! p = d !! p
        ∨ (disk_of (sweep now names d) !! p = None
           ∧ ∃ name n, name ∈ names ∧ p = "uploads/" +:+ name ∧ d !! p = Some n
                       ∧ kind n = RegularFile ∧ mtime n < now - 300))
  ∧ (result_of (sweep now names d) = Returns tt →
     ∀ name n, name ∈ names → d !! ("uploads/" +:+ name) = Some n →
               mtime n < now - 300 →
               kind n = RegularFile
               ∧ disk_of (sweep now names d) !! ("uploads/" +:+ name) = None)
  ∧ (∀ e, result_of (sweep now names d) = Raises e →
       ∃ name n, name ∈ names ∧ e = IsADirectoryError ("uploads/" +:+ name)
                 ∧ d !! ("uploads/" +:+ name) = Some n
                 ∧ kind n = Directory ∧ mtime n < now - 300).
Proof.
  induction names as [|name rest IH]; intros d Hnd Hall.
  - split_and!.
    + intros p. by left.
    + intros _ name n Hin. by apply elem_of_nil in Hin.
    + intros e. discriminate.
  - apply NoDup_cons in Hnd as [Hnotin Hnd].
    destruct (Hall name ltac:(left)) as (Hs & n & Hp).
    rewrite (sweep_cons_present now name rest d n Hs Hp).
    assert (∀ name', name' ∈ rest → "uploads/" +:+ name' ≠ "uploads/" +:+ name) as Hfresh.
    { intros name' Hin Heq%(inj (String.app "uploads/")). by subst. }
    destruct (Z.ltb_spec (mtime n) (now - 300)) as [Hold|Hnew].
    + destruct (kind n) eqn:Hk.
      * destruct (IH (delete ("uploads/" +:+ name) d) Hnd) as (Hd & Hr & He).
        { intros name' Hin. destruct (Hall name' ltac:(by right)) as (Hs' & Hp').
          split; [done|]. by rewrite lookup_delete_ne by (symmetry; by apply Hfresh). }
        unfold result_of, disk_of, log_of in *.
        destruct (sweep now rest _) as [[r d2] l2]; cbn [fst snd] in *.
        split_and!.
        -- intros p. destruct (decide (p = "uploads/" +:+ name)) as [->|Hne].
           ++ right. split.
              ** destruct (Hd ("uploads/" +:+ name)) as [Heq|[Heq _]]; [|done].
                 by rewrite Heq, lookup_delete_eq.
              ** exists name, n. split_and!; try done. by left.
           ++ destruct (Hd p) as [Heq|[Heq (name' & n' & Hin & -> & Hp' & Hk' & Ht')]].
              ** left. by rewrite Heq, lookup_delete_ne.
              ** right. split; [done|]. exists name', n'.
                 rewrite lookup_delete_ne in Hp' by done.
                 split_and!; try done. by right.
        -- intros Hret name' n' [->|Hin]%elem_of_cons Hp' Ht'.
           ++ assert (n' = n) as -> by congruence. split; [done|].
              destruct (Hd ("uploads/" +:+ name)) as [Heq|[Heq _]]; [|done].
              by rewrite Heq, lookup_delete_eq.
           ++ apply (Hr Hret name' n' Hin); [|done].
              by rewrite lookup_delete_ne by (symmetry; by apply Hfresh).
        -- intros e Hraise.
           destruct (He e Hraise) as (name' & n' & Hin & -> & Hp' & Hk' & Ht').
           exists name', n'.
           rewrite lookup_delete_ne in Hp' by (symmetry; by apply Hfresh).
           split_and!; try done. by right.
      * unfold result_of, disk_of; cbn [fst snd]. split_and!.
        -- intros p. by left.
        -- discriminate.
        -- intros e [= <-]. exists name, n. split_and!; try done. by left.
    + destruct (IH d Hnd) as (Hd & Hr & He).
      { intros name' Hin. by apply Hall; right. }
      split_and!.
      * intros p. destruct (Hd p) as [Heq|[Heq (name' & n' & Hin & -> & Hp' & Hk' & Ht')]].
        -- by left.
        -- right. split; [done|]. exists name', n'. split_and!; try done. by right.
      * intros Hret name' n' [->|Hin]%elem_of_cons Hp' Ht'.
        -- assert (n' = n) as -> by congruence. lia.
        -- by apply (Hr Hret name' n' Hin).
      * intros e Hraise.
        destruct (He e Hraise) as (name' & n' & Hin & -> & Hp' & Hk' & Ht').
        exists name', n'. split_and!; try done. by right.
Qed.

(** One turn over an uploads directory, by how the loop ends. *)
Lemma periodic_cleanup_pass_run now (d : disk) dir :
  d !! uploads_dir = Some dir → kind dir = Directory →
  periodic_cleanup_pass now d
  = match sweep now (omap (entry_of uploads_dir) (map_to_list d).*1) d with
    | (Returns _, d2, l2) => (Returns tt, d2, l2 ++ [Slept 300])
    | (Raises e, d2, l2) =>
        (Returns tt, d2, (l2 ++ [PeriodicCleanupError (str e)]) ++ [Slept 300])
    end.
Proof.
  intros Hu Hk. unfold periodic_cleanup_pass, try_except, asyncio_sleep, print.
  unfold mbind at 1. unfold py_bind at 1. unfold bind at 1.
  unfold mbind, py_bind, bind, os_path_exists, os_listdir.
  rewrite bool_decide_eq_true_2 by eauto. rewrite Hu, Hk.
  pose proof (sweep_raises_Exception now
    (omap (entry_of uploads_dir) (map_to_list d).*1) d) as Hs.
  unfold result_of in Hs.
  destruct (sweep now _ d) as [[[[]|e] d2] l2]; simpl in *; [done|].
  by rewrite (Hs e eq_refl).
Qed.

(** One turn when [uploads] is a regular file: the listing fails, the
    error is printed, nothing changes. *)
Lemma periodic_cleanup_pass_not_directory now (d : disk) n :
  d !! uploads_dir = Some n → kind n = RegularFile →
  periodic_cleanup_pass now d
  = (Returns tt, d,
     [PeriodicCleanupError (str (NotADirectoryError uploads_dir)); Slept 300]).
Proof.
  intros Hu Hk. unfold periodic_cleanup_pass, try_except, asyncio_sleep, print.
  unfold mbind at 1. unfold py_bind at 1. unfold bind at 1.
  unfold mbind, py_bind, bind, os_path_exists, os_listdir.
  rewrite bool_decide_eq_true_2 by eauto. by rewrite Hu, Hk.
Qed.

Lemma periodic_cleanup_pass_safe now (d : disk) :
  result_of (periodic_cleanup_pass now d) = Returns tt
  ∧ ∀ p, disk_of (periodic_cleanup_pass now d) !! p = d !! p
         ∨ (disk_of (periodic_cleanup_pass now d) !! p = None
            ∧ ∃ name n, entry_of uploads_dir p = Some name ∧ d !! p = Some n
                        ∧ kind n = RegularFile ∧ mtime n < now - 300).
Proof.
  destruct (d !! uploads_dir) as [dir|] eqn:Hu.
  - destruct (kind dir) eqn:Hk.
    + rewrite (periodic_cleanup_pass_not_directory now d dir Hu Hk).
      split; [done|]. intros p. by left.
    + rewrite (periodic_cleanup_pass_run now d dir Hu Hk).
      set (names := omap (entry_of uploads_dir) (map_to_list d).*1).
      destruct (sweep_present now names d (listing_NoDup d)) as (Hd & _ & _).
      { intros name Hin. by apply listing_elem. }
      assert (∀ p, disk_of (sweep now names d) !! p = d !! p
                   ∨ (disk_of (sweep now names d) !! p = None
                      ∧ ∃ name n, entry_of uploads_dir p = Some name ∧ d !! p = Some n
                                  ∧ kind n = RegularFile ∧ mtime n < now - 300)) as Hd'.
      { intros p. destruct (Hd p) as [Heq|[Heq (name & n & Hin & -> & Hp & Hkn & Ht)]];
          [by left|right]. split; [done|]. exists name, n. split_and!; try done.
        apply list_elem_of_omap in Hin as (q & _ & Hq).
        pose proof Hq as [-> _]%entry_of_Some. done. }
      unfold result_of, disk_of in *.
      destruct (sweep now names d) as [[[[]|e] d2] l2]; cbn [fst snd] in *; done.
  - assert (periodic_cleanup_pass now d = (Returns tt, d, [Slept 300])) as ->.
    { unfold periodic_cleanup_pass, try_except, asyncio_sleep,
        mbind, py_bind, bind, os_path_exists.
      by rewrite bool_decide_eq_false_2 by (rewrite Hu; intros [? ?]; discriminate). }
    split; [done|]. intros p. by left.
Qed.

(** Whatever is on the disk, a turn of the sweep ends normally, and the
    only paths it can remove are regular files directly inside [uploads]
    that were last modified more than 300 s before [now]: a fresh upload,
    a directory, and everything outside [uploads] or deeper inside it
    stay as they were. *)
Theorem sweep_removes_only_stale_uploads now (d : disk) p :
  let run := periodic_cleanup_pass now d in
  result_of run = Returns tt
  ∧ (disk_of run !! p = d !! p
     ∨ (disk_of run !! p = None
        ∧ ∃ name n, p = "uploads/" +:+ name ∧ has_slash name = false
                    ∧ d !! p = Some n ∧ kind n = RegularFile
                    ∧ mtime n < now - 300)).
Proof.
  intros run. subst run.
  destruct (periodic_cleanup_pass_safe now d) as [Hr Hd]. split; [done|].
  destruct (Hd p) as [Heq|[Heq (name & n & Hname & Hp & Hk & Ht)]]; [by left|right].
  split; [done|]. exists name, n.
  apply entry_of_Some in Hname as [-> Hs]. done.
Qed.


(** The loop of [periodic_cleanup] over any number of turns, on any disk:
    no turn raises, so the loop goes on; and a path that is gone at the end
    was a regular file directly inside [uploads], older than 300 s at one
    of the readings of the clock. *)
Theorem periodic_cleanup_keeps_running clock : ∀ (d : disk),
  let run := periodic_cleanup clock d in
  result_of run = Returns tt
  ∧ ∀ p, disk_of run !! p = d !! p
         ∨ (disk_of run !! p = None
            ∧ ∃ name n now, now ∈ clock ∧ p = "uploads/" +:+ name
                            ∧ has_slash name = false ∧ d !! p = Some n
                            ∧ kind n = RegularFile ∧ mtime n < now - 300).
Proof.
  induction clock as [|now later IH]; intros d run; subst run.
  - split; [done|]. intros p. by left.
  - simpl. unfold mbind, py_bind, bind.
    destruct (periodic_cleanup_pass_safe now d) as [Hr Hd].
    unfold result_of, disk_of in Hr, Hd.
    destruct (periodic_cleanup_pass now d) as [[r d1] l1]; cbn [fst snd] in Hr, Hd.
    subst r. destruct (IH d1) as [Hr' Hd'].
    unfold result_of, disk_of in *.
    destruct (periodic_cleanup later d1) as [[r d2] l2]; cbn [fst snd] in *.
    split; [done|]. intros p.
    destruct (Hd' p) as [Heq|[Heq (name & n & now' & Hin & -> & Hs & Hp & Hk & Ht)]].
    + rewrite Heq.
      destruct (Hd p) as [Heq1|[Heq1 (name & n & Hname & Hp & Hk & Ht)]]; [by left|].
      right. split; [done|]. apply entry_of_Some in Hname as [-> Hs].
      exists name, n, now. split_and!; try done. by left.
    + right. split; [done|].
      destruct (Hd ("uploads/" +:+ name)) as [Heq1|[Heq1 _]]; [|congruence].
      exists name, n, now'. rewrite <- Heq1. split_and!; try done. by right.
Qed.

(** *** Deleting what is already deleted *)

(** The loop prints deletions only. *)
Lemma sweep_log now names : ∀ (d : disk) ev,
  ev ∈ log_of (sweep now names d) → ∃ p, ev = PeriodicCleanup p.
Proof.
  induction names as [|filename rest IH]; intros d ev.
  - intros Hin. by apply elem_of_nil in Hin.
  - simpl. unfold mbind, py_bind, bind, os_path_getmtime.
    destruct (d !! os_path_join uploads_dir filename) as [n|] eqn:Hp; simpl.
    + destruct (mtime n <? now - 300).
      * unfold os_remove, print. rewrite Hp. destruct (kind n); simpl.
        -- specialize (IH (delete (os_path_join uploads_dir filename) d) ev).
           unfold log_of in *.
           destruct (sweep now rest _) as [[r d2] l2]; simpl in *.
           intros [->|Hin]%elem_of_cons; eauto.
        -- unfold log_of; simpl. intros Hin. by apply elem_of_nil in Hin.
      * simpl. specialize (IH d ev). unfold log_of in *.
        destruct (sweep now rest d) as [[r d2] l2]; simpl in *. exact IH.
    + unfold log_of; simpl. intros Hin. by apply elem_of_nil in Hin.
Qed.

(** The errors a turn can print: a stale subdirectory of [uploads], or
    [uploads] being a regular file. *)
Lemma periodic_cleanup_pass_errors now (d : disk) msg :
  PeriodicCleanupError msg ∈ log_of (periodic_cleanup_pass now d) →
  (∃ name n, d !! ("uploads/" +:+ name) = Some n ∧ kind n = Directory
             ∧ mtime n < now - 300
             ∧ msg = str (IsADirectoryError ("uploads/" +:+ name)))
  ∨ (∃ n, d !! uploads_dir = Some n ∧ kind n = RegularFile
          ∧ msg = str (NotADirectoryError uploads_dir)).
Proof.
  destruct (d !! uploads_dir) as [dir|] eqn:Hu.
  - destruct (kind dir) eqn:Hk.
    + rewrite (periodic_cleanup_pass_not_directory now d dir Hu Hk).
      unfold log_of; cbn [fst snd].
      intros [[= ->]|Hin]%elem_of_cons.
      * right. by exists dir.
      * apply list_elem_of_singleton in Hin. discriminate.
    + rewrite (periodic_cleanup_pass_run now d dir Hu Hk).
      set (names := omap (entry_of uploads_dir) (map_to_list d).*1).
      destruct (sweep_present now names d (listing_NoDup d)) as (_ & _ & Hraise).
      { intros name Hin. by apply listing_elem. }
      pose proof (sweep_log now names d) as Hlog.
      unfold result_of, log_of in *.
      destruct (sweep now names d) as [[[[]|e] d2] l2]; cbn [fst snd] in *.
      * intros [Hin|Hin]%elem_of_app.
        -- by destruct (Hlog _ Hin).
        -- apply list_elem_of_singleton in Hin. discriminate.
      * intros [[Hin|Hin]%elem_of_app|Hin]%elem_of_app.
        -- by destruct (Hlog _ Hin).
        -- apply list_elem_of_singleton in Hin as [= ->].
           destruct (Hraise e eq_refl) as (name & n & _ & -> & Hp & Hkn & Ht).
           left. by exists name, n.
        -- apply list_elem_of_singleton in Hin. discriminate.
  - assert (periodic_cleanup_pass now d = (Returns tt, d, [Slept 300])) as ->.
    { unfold periodic_cleanup_pass, try_except, asyncio_sleep,
        mbind, py_bind, bind, os_path_exists.
      by rewrite bool_decide_eq_false_2 by (rewrite Hu; intros [? ?]; discriminate). }
    unfold log_of; cbn [fst snd]. intros Hin.
    apply list_elem_of_singleton in Hin. discriminate.
Qed.

(** Over regular files a second turn at the same time finds nothing left
    to remove. *)
Lemma periodic_cleanup_pass_twice now (d : disk) :
  (∀ q name n, entry_of uploads_dir q = Some name → d !! q = Some n →
               kind n = RegularFile) →
  disk_of (periodic_cleanup_pass now (disk_of (periodic_cleanup_pass now d)))
  = disk_of (periodic_cleanup_pass now d).
Proof.
  intros Hreg.
  assert (periodic_cleanup_pass now d = (Returns tt, d, [Slept 300]) →
          disk_of (periodic_cleanup_pass now (disk_of (periodic_cleanup_pass now d)))
          = disk_of (periodic_cleanup_pass now d)) as Hidle.
  { intros Hrun. rewrite Hrun. unfold disk_of at 2 3; cbn [fst snd]. by rewrite Hrun. }
  destruct (d !! uploads_dir) as [dir|] eqn:Hu.
  - destruct (kind dir) eqn:Hk.
    + pose proof (periodic_cleanup_pass_not_directory now d dir Hu Hk) as Hrun.
      rewrite Hrun. unfold disk_of at 2 3; cbn [fst snd]. by rewrite Hrun.
    + set (d1 := disk_of (periodic_cleanup_pass now d)).
      destruct (periodic_cleanup_pass_safe now d1) as [_ Hd2].
      apply map_eq. intros q.
      destruct (Hd2 q) as [Heq|[_ (name & n & Hname & Hq1 & Hkn & Ht)]]; [done|].
      exfalso. revert Hq1. subst d1.
      rewrite (periodic_cleanup_pass_run now d dir Hu Hk).
      set (names := omap (entry_of uploads_dir) (map_to_list d).*1).
      destruct (sweep_present now names d (listing_NoDup d)) as (Hd1 & Hret & Hraise).
      { intros name' Hin. by apply listing_elem. }
      unfold result_of, disk_of in *.
      destruct (sweep now names d) as [[[[]|e] d2] l2]; cbn [fst snd] in *.
      * intros Hq1.
        assert (d !! q = Some n) as Hq.
        { destruct (Hd1 q) as [Heq|[Heq _]]; congruence. }
        assert (name ∈ names) as Hin by (by eapply entry_in_listing).
        pose proof Hname as [-> _]%entry_of_Some.
        destruct (Hret eq_refl name n Hin Hq Ht) as [_ Hgone]. congruence.
      * intros _.
        destruct (Hraise e eq_refl) as (name' & n' & Hin & _ & Hp & Hkn' & _).
        apply list_elem_of_omap in Hin as (q' & _ & Hq').
        pose proof Hq' as [-> _]%entry_of_Some.
        pose proof (Hreg _ _ _ Hq' Hp). congruence.
  - apply Hidle.
    unfold periodic_cleanup_pass, try_except, asyncio_sleep,
      mbind, py_bind, bind, os_path_exists.
    by rewrite bool_decide_eq_false_2 by (rewrite Hu; intros [? ?]; discriminate).
Qed.

(** C6. Deleting a path that has already been deleted is a no-op in each
    of the three cleanups. [cleanup_file] and the handler's [finally]
    block ask [os.path.exists] first: on a deleted path each returns
    without an error and leaves the disk as it is, and run twice each
    leaves the disk that one run leaves. The sweep asks whether the
    uploads directory exists and takes its names from the listing, with
    no [await] before its loop has ended, so a deleted file is not among
    them: on any disk a turn returns and never prints a
    [FileNotFoundError]; a deleted path stays deleted; and over a
    directory of regular files a second turn at the same time leaves the
    disk that the first turn left. *)
Theorem cleanup_idempotent p delay now (d : disk) :
  cleanup_file p delay (delete p d)
  = (Returns tt, delete p d, if 0 <? delay then [Slept delay] else [])
  ∧ result_of (cleanup_file p delay d) = Returns tt
  ∧ disk_of (cleanup_file p delay (disk_of (cleanup_file p delay d)))
    = disk_of (cleanup_file p delay d)
  ∧ privacy_cleanup (Some p) (delete p d) = (Returns tt, delete p d, [])
  ∧ result_of (privacy_cleanup (Some p) d) = Returns tt
  ∧ disk_of (privacy_cleanup (Some p) (disk_of (privacy_cleanup (Some p) d)))
    = disk_of (privacy_cleanup (Some p) d)
  ∧ result_of (periodic_cleanup_pass now d) = Returns tt
  ∧ (∀ q, PeriodicCleanupError (str (FileNotFoundError q))
          ∉ log_of (periodic_cleanup_pass now d))
  ∧ disk_of (periodic_cleanup_pass now (delete p d)) !! p = None
  ∧ ((∀ q name n, entry_of uploads_dir q = Some name → d !! q = Some n →
                  kind n = RegularFile) →
     disk_of (periodic_cleanup_pass now (disk_of (periodic_cleanup_pass now d)))
     = disk_of (periodic_cleanup_pass now d)).
Proof.
  split_and!.
  - apply cleanup_file_absent, lookup_delete_eq.
  - apply cleanup_file_returns.
  - apply cleanup_file_twice.
  - apply privacy_cleanup_absent, lookup_delete_eq.
  - apply privacy_cleanup_returns.
  - apply privacy_cleanup_twice.
  - apply periodic_cleanup_pass_safe.
  - intros q [(name & n & _ & _ & _ & Hmsg)|(n & _ & _ & Hmsg)]%periodic_cleanup_pass_errors;
      vm_compute in Hmsg; discriminate.
  - destruct (periodic_cleanup_pass_safe now (delete p d)) as [_ Hd].
    destruct (Hd p) as [Heq|[Heq _]]; [|done].
    by rewrite Heq, lookup_delete_eq.
  - apply periodic_cleanup_pass_twice.
Qed.

End SweepFacts.

(** ** A second request for the same upload *)

Section RepeatedRequest.
Import Py Backend.

Variable analyze_face : string → disk → outcome json.
Variable get_recommendations : json → outcome json.

(** An upload can be analysed once. After a first request for an uploaded
    file, a second request for the same [file_id] finds the file gone, so
    the detector is run on a path that does not exist; if the detector
    raises there, the second request answers with the error object. It
    changes nothing on the disk and prints nothing. *)
Theorem upload_analysed_once file_id (d : disk) n e :
  d !! ("uploads/" +:+ file_id) = Some n → kind n = RegularFile →
  analyze_face ("uploads/" +:+ file_id) (delete ("uploads/" +:+ file_id) d) = Raises e →
  isinstance_Exception e = true →
  let first := analyze_and_recommend analyze_face get_recommendations file_id d in
  let second :=
    analyze_and_recommend analyze_face get_recommendations file_id (disk_of first) in
  disk_of first = delete ("uploads/" +:+ file_id) d
  ∧ result_of second = Returns (JObj [("error", JStr (str e)); ("status", JStr "error")])
  ∧ disk_of second = disk_of first
  ∧ log_of second = [].
Proof.
  intros Hp Hk Ha He first second. subst first second.
  destruct (handler_run analyze_face get_recommendations file_id d) as (_ & Hd & _).
  rewrite (privacy_cleanup_regular _ _ n) in Hd by (auto using truthy_temp_path).
  unfold disk_of at 2 in Hd; cbn [fst snd] in Hd. rewrite Hd.
  destruct (handler_run analyze_face get_recommendations file_id
              (delete ("uploads/" +:+ file_id) d)) as (Hr2 & Hd2 & Hl2).
  rewrite privacy_cleanup_absent in Hd2, Hl2 by apply lookup_delete_eq.
  split_and!; [done| |done..].
  rewrite Hr2. unfold guarded_body, try_except, mbind, py_bind, bind,
    face_analyzer_analyze_face. rewrite Ha. simpl. by rewrite He.
Qed.

End RepeatedRequest.

(** ** Dropping and selecting files *)

Section DropFacts.
Import Js FileUpload.

Variable uploadFile : file → task Api.world object.

Lemma handleFileUpload_settles f e :
  (handleFileUpload uploadFile f e).1 = Resolved tt
  ∧ uploading (handleFileUpload uploadFile f e).2 = false
  ∧ isDragging (handleFileUpload uploadFile f e).2 = isDragging e
  ∧ (uploadFile_calls (handleFileUpload uploadFile f e).2 = uploadFile_calls e
     ∨ uploadFile_calls (handleFileUpload uploadFile f e).2 = uploadFile_calls e ++ [f])
  ∧ (error (handleFileUpload uploadFile f e).2 = None
     ↔ onFileUpload_calls (handleFileUpload uploadFile f e).2
       ≠ onFileUpload_calls e).
Proof.
  assert (∀ (l : list (file * jsval)) x, l ++ [x] ≠ l) as Hgrow.
  { intros l x Heq%(f_equal length). rewrite length_app in Heq. simpl in Heq. lia. }
  destruct (validateFile f) as [b|err] eqn:Hv.
  - assert (b = true) as ->.
    { revert Hv. rewrite validateFile_cases.
      destruct (String.prefix _ _); [|done]. case_decide; congruence. }
    rewrite (handleFileUpload_valid uploadFile f e Hv).
    destruct (uploadFile f (net e)) as [[response|x] w]; simpl.
    + split_and!; try done; try (by right);
        try (split; [intros _; apply Hgrow|done]).
    + split_and!; try done; try (by right); try (split; [done|]; by intros []).
  - rewrite (handleFileUpload_invalid uploadFile f err e Hv). simpl.
    split_and!; try done; try (by left); try (split; [done|]; by intros []).
Qed.

(** A drop of several files uploads the first one only: the others are
    neither validated nor sent nor reported, and no error is shown for
    them. A drop of no file only ends the dragging state. The file picker
    does the same, without touching the dragging state. In every case the
    handler ends normally with [uploading] false, and the parent is told of
    a file exactly when the component shows no error. *)
Theorem drop_uploads_first_file_only f rest e :
  handleDrop uploadFile (f :: rest) e = handleDrop uploadFile [f] e
  ∧ handleFileSelect uploadFile (f :: rest) e = handleFileUpload uploadFile f e
  ∧ handleFileSelect uploadFile [] e = (Resolved tt, e)
  ∧ (handleDrop uploadFile [] e).1 = Resolved tt
  ∧ isDragging (handleDrop uploadFile [] e).2 = false
  ∧ uploadFile_calls (handleDrop uploadFile [] e).2 = uploadFile_calls e
  ∧ onFileUpload_calls (handleDrop uploadFile [] e).2 = onFileUpload_calls e
  ∧ error (handleDrop uploadFile [] e).2 = error e
  ∧ (handleDrop uploadFile (f :: rest) e).1 = Resolved tt
  ∧ isDragging (handleDrop uploadFile (f :: rest) e).2 = false
  ∧ uploading (handleDrop uploadFile (f :: rest) e).2 = false
  ∧ (uploadFile_calls (handleDrop uploadFile (f :: rest) e).2 = uploadFile_calls e
     ∨ uploadFile_calls (handleDrop uploadFile (f :: rest) e).2
       = uploadFile_calls e ++ [f])
  ∧ (error (handleDrop uploadFile (f :: rest) e).2 = None
     ↔ onFileUpload_calls (handleDrop uploadFile (f :: rest) e).2
       ≠ onFileUpload_calls e).
Proof.
  set (e1 := {| isDragging := false; uploading := uploading e; error := error e;
               net := net e; uploadFile_calls := uploadFile_calls e;
               onFileUpload_calls := onFileUpload_calls e |}).
  assert (handleDrop uploadFile (f :: rest) e = handleFileUpload uploadFile f e1)
    as -> by reflexivity.
  destruct (handleFileUpload_settles f e1) as (Hr & Hu & Hg & Hc & He).
  split_and!; done.
Qed.

End DropFacts.

(** ** The size text at the ends of a unit's range *)

Section SizeTextFacts.
Import ImagePreview.

Lemma show_hundredths_whole n : show_hundredths (100 * n) = pretty n.
Proof.
  unfold show_hundredths.
  replace (100 * n) with (n * 100) by lia.
  rewrite Z.mod_mul, Z.div_mul by lia. reflexivity.
Qed.

(** A size below 1024 bytes is printed exactly, in bytes. *)
Theorem formatFileSize_below_1024 b :
  1 ≤ b < 1024 → formatFileSize b = pretty b +:+ " Bytes".
Proof.
  intros Hb. rewrite formatFileSize_positive by lia.
  rewrite (floor_log_unique 1024 b 0) by lia.
  assert (toFixed2 b (1024 ^ 0) = 100 * b) as ->.
  { unfold toFixed2. change (1024 ^ 0) with 1.
    replace (200 * b + 1) with (1 + (100 * b) * (2 * 1)) by lia.
    rewrite Z.div_add by lia. reflexivity. }
  by rewrite show_hundredths_whole.
Qed.

(** Inside the range of a unit the number printed lies between 1 and
    1024, and it is 1024 exactly for the sizes within 0.005 of the next
    unit: such a size reads [1024 KB] (or [1024 MB], [1024 GB]), not
    1 of the next unit. *)
Theorem formatFileSize_reads_1024 b i :
  1 ≤ i < 4 → 1024 ^ i ≤ b < 1024 ^ (i + 1) →
  ∃ n, formatFileSize b = show_hundredths n +:+ " " +:+ unit_text i
       ∧ 100 ≤ n ≤ 102400
       ∧ (n = 102400 ↔ 204799 * 1024 ^ i ≤ 200 * b)
       ∧ (204799 * 1024 ^ i ≤ 200 * b →
          formatFileSize b = "1024 " +:+ unit_text i).
Proof.
  intros Hi Hb.
  assert (0 < 1024 ^ i) as Hpos by (apply Z.pow_pos_nonneg; lia).
  assert (1024 ^ (i + 1) = 1024 * 1024 ^ i) as Hsucc
    by (replace (i + 1) with (Z.succ i) by lia; rewrite Z.pow_succ_r; lia).
  rewrite formatFileSize_positive by lia.
  rewrite (floor_log_unique 1024 b i) by lia.
  pose proof (toFixed2_nearest b (1024 ^ i) Hpos) as Hn.
  set (n := toFixed2 b (1024 ^ i)) in *.
  assert (100 ≤ n ≤ 102400) as Hrange by nia.
  assert (n = 102400 ↔ 204799 * 1024 ^ i ≤ 200 * b) as Htop by nia.
  exists n. do 3 (split; [done|]).
  intros Hhigh. apply Htop in Hhigh. rewrite Hhigh.
  assert (show_hundredths 102400 = "1024") as -> by reflexivity. reflexivity.
Qed.

End SizeTextFacts.


(** ** The statements at work on concrete runs *)

Section Witnesses.
Import Py Backend Samples.

(** C1 at work: the detector finds no face and raises; the upload is gone
    all the same. *)
Lemma upload_deleted_witness :
  one_upload !! "uploads/a1b2.jpg" = Some (Node RegularFile 100)
  ∧ disk_of (analyze_and_recommend
               (λ _ _, Raises (OtherException "No face detected"))
               (λ _, Returns JNull) "a1b2.jpg" one_upload)
      !! "uploads/a1b2.jpg" = None.
Proof.
  split; [reflexivity|].
  exact (proj1 (upload_deleted_when_handler_completes
                  (λ _ _, Raises (OtherException "No face detected"))
                  (λ _, Returns JNull) "a1b2.jpg" one_upload
                  (Node RegularFile 100) eq_refl eq_refl)).
Defined.

(** C5 at work: the recommendation client raises after a good analysis. *)
Lemma exception_returned_witness :
  result_of (analyze_and_recommend
               (λ _ _, Returns (JObj [("face_shape", JStr "oval")]))
               (λ _, Raises (OtherException "API key missing"))
               "a1b2.jpg" one_upload)
  = Returns (JObj [("error", JStr "API key missing"); ("status", JStr "error")]).
Proof.
  apply (exception_returned_as_error_json
           (λ _ _, Returns (JObj [("face_shape", JStr "oval")]))
           (λ _, Raises (OtherException "API key missing"))
           "a1b2.jpg" one_upload (OtherException "API key missing")).
  - reflexivity.
  - right. exists (JObj [("face_shape", JStr "oval")]). split; reflexivity.
Defined.

(** C9 at work: the request is rejected; the results stay [null], the
    message is shown and the step is [preview] again. *)
Lemma handleAnalyze_atomic_witness :
  let api : string → Js.task Api.world Js.object :=
    λ _ w, (Js.Rejected (Js.new_Error "Internal server error. Please try again later."), w) in
  let out := App.handleAnalyze api previewing in
  App.loading out.2 = false
  ∧ App.analysisData out.2 = Js.value JNull
  ∧ App.recommendations out.2 = Js.value JNull
  ∧ App.error out.2 = Some "Internal server error. Please try again later."
  ∧ App.currentStep out.2 = App.preview.
Proof.
  intros api out.
  destruct (handleAnalyze_atomic api previewing "a1b2.jpg" eq_refl ltac:(discriminate))
    as (_ & Hl & _ & Hrej & _).
  destruct (Hrej _ eq_refl) as (Ha & Hr & _ & Hs).
  split_and!; [exact Hl | exact Ha | exact Hr | reflexivity | exact Hs].
Defined.

(** C4 at work: both services return, and the app shows what they returned. *)
Lemma combined_response_witness :
  let analysis := JObj [("face_shape", JStr "oval")] in
  let advice := JObj [("lipstick", JStr "coral")] in
  let response :=
    [("analysis", analysis); ("recommendations", advice); ("status", JStr "success")] in
  let api : string → Js.task Api.world Js.object :=
    λ _ w, (Js.Resolved response, w) in
  result_of (analyze_and_recommend (λ _ _, Returns analysis) (λ _, Returns advice)
               "a1b2.jpg" one_upload)
  = Returns (JObj response)
  ∧ App.analysisData (App.handleAnalyze api previewing).2 = Js.value analysis
  ∧ App.recommendations (App.handleAnalyze api previewing).2 = Js.value advice.
Proof.
  intros analysis advice response api.
  destruct (combined_response_fields (λ _ _, Returns analysis) (λ _, Returns advice)
              "a1b2.jpg" one_upload analysis advice eq_refl eq_refl)
    as (Hres & _ & _ & _ & Happ & _).
  destruct (Happ api previewing "a1b2.jpg" previewing.(App.net) eq_refl
              ltac:(discriminate) eq_refl) as (Ha & Hr & _).
  split_and!; [exact Hres | exact Ha | exact Hr].
Defined.

(** C3 at work: a PDF is refused before anything is sent; a PNG of exactly
    10 MB is uploaded and handed to [onFileUpload]. *)
Lemma upload_rejected_witness :
  let pdf := Js.File "cv.pdf" "application/pdf" 2048 in
  let png := Js.File "selfie.png" "image/png" 10485760 in
  let refused := (FileUpload.handleFileUpload upload_succeeds pdf idle_upload).2 in
  let accepted := (FileUpload.handleFileUpload upload_succeeds png idle_upload).2 in
  FileUpload.uploadFile_calls refused = []
  ∧ FileUpload.onFileUpload_calls refused = []
  ∧ FileUpload.error refused = Some "Please select an image file"
  ∧ FileUpload.uploadFile_calls accepted = [png]
  ∧ FileUpload.onFileUpload_calls accepted = [(png, Js.value (JStr "a1b2.jpg"))].
Proof.
  intros pdf png refused accepted.
  destruct (upload_rejected_iff_invalid upload_succeeds pdf idle_upload)
    as (_ & _ & Hinvalid & _).
  destruct (Hinvalid ltac:(by left)) as (_ & _ & Hcb).
  destruct (upload_rejected_iff_invalid upload_succeeds png idle_upload)
    as (_ & _ & _ & Hvalid & _).
  destruct (Hvalid ltac:(by intros [?|?])) as (Hcalls & _ & Hok & _).
  destruct (Hok _ eq_refl) as (_ & Hcb').
  split_and!; [reflexivity | exact Hcb | reflexivity | exact Hcalls | exact Hcb'].
Defined.

(** A cancelled request leaves the handler as [CancelledError], the upload
    deleted all the same. *)
Lemma base_exception_witness :
  result_of (analyze_and_recommend
               (λ _ _, Raises (BaseExceptionOnly "CancelledError"))
               (λ _, Returns JNull) "a1b2.jpg" one_upload)
  = Raises (BaseExceptionOnly "CancelledError").
Proof.
  exact (base_exception_propagates
           (λ _ _, Raises (BaseExceptionOnly "CancelledError"))
           (λ _, Returns JNull) "a1b2.jpg" one_upload "CancelledError" eq_refl).
Defined.

(** Before any upload [handleAnalyze] does nothing. *)
Lemma handleAnalyze_without_file_witness :
  let api : string → Js.task Api.world Js.object := λ _ w, (Js.Resolved [], w) in
  let fresh := App.initial {| Api.sent := []; Api.timers := [] |} in
  App.handleAnalyze api fresh = (Js.Resolved tt, fresh).
Proof.
  intros api fresh. exact (handleAnalyze_without_file api fresh eq_refl).
Defined.

(** The backend's error object, taken for a result by the app. *)
Lemma error_object_taken_for_result_witness :
  let api : string → Js.task Api.world Js.object :=
    λ _ w, (Js.Resolved [("error", JStr "No face detected"); ("status", JStr "error")], w) in
  App.currentStep (App.handleAnalyze api previewing).2 = App.results
  ∧ App.error (App.handleAnalyze api previewing).2 = None.
Proof.
  intros api.
  destruct (error_object_taken_for_result api previewing "a1b2.jpg"
              previewing.(App.net) "No face detected" eq_refl ltac:(discriminate) eq_refl)
    as (_ & _ & He & Hs).
  split; [exact Hs | exact He].
Defined.

(** The sweep on two old uploads: both go, the directory stays. *)
Lemma sweep_removes_stale_uploads_witness :
  disk_of (periodic_cleanup_pass 1000 two_uploads) !! "uploads/a.jpg" = None
  ∧ disk_of (periodic_cleanup_pass 1000 two_uploads) !! "uploads/b.jpg" = None
  ∧ disk_of (periodic_cleanup_pass 1000 two_uploads) !! "uploads"
    = Some (Node Directory 0).
Proof.
  destruct (sweep_removes_stale_uploads 1000 two_uploads (Node Directory 0)
              eq_refl eq_refl) as (_ & _ & Hd).
  { intros p name n [-> _]%entry_of_Some.
    destruct (decide (name = "a.jpg")) as [->|Ha]; [by intros [= <-]|].
    destruct (decide (name = "b.jpg")) as [->|Hb]; [by intros [= <-]|].
    unfold two_uploads.
    rewrite lookup_insert_ne by done.
    rewrite lookup_insert_ne by (by intros ?%(inj (String.app "uploads/"))).
    rewrite lookup_insert_ne by (by intros ?%(inj (String.app "uploads/"))).
    by rewrite lookup_empty. }
  rewrite !Hd. done.
Defined.

(** The sweep on a disk with no uploads directory. *)
Lemma periodic_cleanup_pass_no_directory_witness :
  periodic_cleanup_pass 1000 ∅ = (Returns tt, ∅, [Slept 300]).
Proof. exact (periodic_cleanup_pass_no_directory 1000 ∅ eq_refl). Defined.

End Witnesses.

(** ** Further runs *)

Section MoreWitnesses.
Import Py Backend Samples.

(** One cold failure, then success: one timer of 2000 ms, and the value. *)
Lemma retryRequest_first_final_witness :
  Api.retryRequest (λ w, (cold_once (length (Api.timers w)), w)) 2 (2000 # 1)
    {| Api.sent := []; Api.timers := [] |}
  = (Js.Resolved 7, {| Api.sent := []; Api.timers := [2000 # 1]%Q |}).
Proof.
  apply (retryRequest_first_final cold_once [] 2 (2000 # 1) 1).
  - lia.
  - intros i Hi. destruct i as [|i]; [|lia].
    eexists. split; [reflexivity|]. by left.
  - right. left. by exists 7.
Defined.

(** Start Over while an analysis is awaited: a second upload, on its way
    since the upload step, reports during the analysis and brings the
    preview panel back with its Start Over button. On the upload step
    nothing of the files is left, and the app is still loading. *)
Lemma app_state_invariants_witness :
  let selfie := Js.File "selfie.jpg" "image/jpeg" 5000000 in
  let other := Js.File "other.jpg" "image/jpeg" 4000000 in
  let s :=
    (App.handleStartOver
       (App.handleFileUpload other (Some "c3d4.jpg")
          (AppFlow.handleAnalyze_begin previewing).2).2).2 in
  App.currentStep s = App.upload
  ∧ App.loading s = true
  ∧ App.uploadedFile s = None
  ∧ App.fileId s = None
  ∧ App.error s = None.
Proof.
  intros selfie other s.
  assert (AppFlow.reachable s) as Hreach.
  { apply AppFlow.reach_start_over, AppFlow.reach_file_uploaded,
      AppFlow.reach_analyze_begin.
    apply (AppFlow.reach_file_uploaded
             (App.initial {| Api.sent := []; Api.timers := [] |})
             selfie (Some "a1b2.jpg")).
    apply AppFlow.reach_initial. }
  destruct (app_state_invariants s Hreach) as (Hupload & _ & _).
  destruct (Hupload eq_refl) as (Hfile & Hid & _ & _ & Herr).
  split_and!; [reflexivity | reflexivity | exact Hfile | exact Hid | exact Herr].
Defined.

(** The analysis with the network down: one request, the interceptor's
    text on the preview step. *)
Lemma analysis_on_real_client_witness :
  let out := (Wiring.handleAnalyze None offline previewing).2 in
  length (Api.sent (App.net out)) = 1%nat
  ∧ App.currentStep out = App.preview
  ∧ App.error out
    = Some "Network error. Please check your connection and ensure the backend is running.".
Proof.
  intros out.
  pose proof (analysis_on_real_client None offline previewing "a1b2.jpg"
                eq_refl ltac:(discriminate)) as Hrun.
  cbv zeta in Hrun. destruct Hrun as (Hsent & _ & _ & _ & _ & Hstep & _ & _ & Herr).
  subst out. split_and!; [by rewrite Hsent | exact Hstep | exact Herr].
Defined.

Lemma failed_analysis_shows_message_witness :
  AppFlow.error_banner (Wiring.handleAnalyze None offline previewing).2
  = Some "Network error. Please check your connection and ensure the backend is running.".
Proof.
  destruct (failed_analysis_shows_message None offline previewing "a1b2.jpg"
              {| Js.code := Some "ERR_NETWORK"; Js.message := "Network Error";
                 Js.response := None |}
              eq_refl ltac:(discriminate) eq_refl) as (m & Hm & Hdown & _).
  rewrite Hm. f_equal. by apply Hdown.
Defined.


(** The second request for an upload gets the detector's error. *)
Lemma upload_analysed_once_witness :
  let first := analyze_and_recommend detector (λ _, Returns JNull) "a1b2.jpg" one_upload in
  result_of (analyze_and_recommend detector (λ _, Returns JNull) "a1b2.jpg"
               (disk_of first))
  = Returns (JObj [("error", JStr "Could not read image"); ("status", JStr "error")]).
Proof.
  intros first.
  destruct (upload_analysed_once detector (λ _, Returns JNull) "a1b2.jpg" one_upload
              (Node RegularFile 100) (OtherException "Could not read image")
              eq_refl eq_refl eq_refl eq_refl) as (_ & Hsecond & _).
  exact Hsecond.
Defined.

Lemma formatFileSize_below_1024_witness :
  ImagePreview.formatFileSize 512 = "512 Bytes".
Proof. exact (formatFileSize_below_1024 512 ltac:(lia)). Defined.

(** Five bytes short of a mebibyte. *)
Lemma formatFileSize_reads_1024_witness :
  ImagePreview.formatFileSize 1048571 = "1024 KB".
Proof.
  destruct (formatFileSize_reads_1024 1048571 1 ltac:(lia) ltac:(simpl; lia))
    as (n & _ & _ & _ & Hhigh).
  exact (Hhigh ltac:(simpl; lia)).
Defined.

(** The sweep run twice over two old uploads, and over a disk from which
    one of them has been deleted. *)
Lemma cleanup_idempotent_witness :
  disk_of (periodic_cleanup_pass 1000 (disk_of (periodic_cleanup_pass 1000 two_uploads)))
  = disk_of (periodic_cleanup_pass 1000 two_uploads)
  ∧ disk_of (periodic_cleanup_pass 1000 (delete "uploads/a.jpg" two_uploads))
      !! "uploads/a.jpg" = None.
Proof.
  assert (∀ q name n, entry_of uploads_dir q = Some name → two_uploads !! q = Some n →
                      kind n = RegularFile) as Hreg.
  { intros p name n [-> _]%entry_of_Some.
    destruct (decide (name = "a.jpg")) as [->|Ha]; [by intros [= <-]|].
    destruct (decide (name = "b.jpg")) as [->|Hb]; [by intros [= <-]|].
    unfold two_uploads.
    rewrite lookup_insert_ne by done.
    rewrite lookup_insert_ne by (by intros ?%(inj (String.app "uploads/"))).
    rewrite lookup_insert_ne by (by intros ?%(inj (String.app "uploads/"))).
    by rewrite lookup_empty. }
  pose proof (cleanup_idempotent "uploads/a.jpg" 0 1000 two_uploads) as Hrun.
  split.
  - exact (proj2 (proj2 (proj2 (proj2 (proj2 (proj2 (proj2 (proj2 (proj2 Hrun))))))))
             Hreg).
  - exact (proj1 (proj2 (proj2 (proj2 (proj2 (proj2 (proj2 (proj2 (proj2 Hrun))))))))).
Defined.

End MoreWitnesses.
